(** * Smart indoor air-quality backend: command queue, device registry,
      threshold resolver and ingestion, over a model of the document store.

    The development follows [src/main.py] and [src/schemas.py].  The
    handlers are pure functions on an explicit [database] value: every
    handler takes the store (and, where the source reads the clock, the
    instant read) and returns its response with the new store.

    Modelling conventions.
    - A Python dict / BSON document is a [gmap string value]; a missing key
      and a key bound to [VNull] are different things, as in the source.
    - A stored document always carries an [_id] assigned by the store, so a
      stored document is a pair of its ObjectId and its other fields;
      [to_dict] gives the dict the driver hands to the handler.
    - A collection is the list of its documents in insertion (natural)
      order.
    - [float] quantities are the rationals ([Q]) that finite floats are.
      [compute_aqi] multiplies them exactly; [compute_aqi_fl] is the same
      code with the rounding of each product carried as a parameter.
    - The handle [db] is taken to be initialised (not [None]) and truthy. *)

From Stdlib Require Import ZArith NArith QArith Qround Qminmax String Ascii List Sorted.
From stdpp Require Import base option list sorting gmap strings.

Local Open Scope Z_scope.
Local Open Scope string_scope.
Local Open Scope list_scope.

(** ** Values and documents *)

Definition time := Z.
Definition oid := N.

Inductive value : Type :=
| VNull
| VBool (b : bool)
| VInt (z : Z)
| VNum (q : Q)
| VStr (s : string)
| VTime (t : time)
| VOid (i : oid).

Record document : Type := Document {
  doc_id : oid;
  doc_fields : gmap string value
}.

(** The dict a driver call returns for a stored document. *)
Definition to_dict (d : document) : gmap string value :=
  <["_id" := VOid (doc_id d)]> (doc_fields d).

(** [str(ObjectId)]: the 24 lower-case hexadecimal digits of the 12 bytes. *)
Definition hex_digit (n : N) : ascii :=
  match n with
  | 0%N => "0" | 1%N => "1" | 2%N => "2" | 3%N => "3"
  | 4%N => "4" | 5%N => "5" | 6%N => "6" | 7%N => "7"
  | 8%N => "8" | 9%N => "9" | 10%N => "a" | 11%N => "b"
  | 12%N => "c" | 13%N => "d" | 14%N => "e" | _ => "f"
  end%char.

Fixpoint hex_digits (k : nat) (n : N) (acc : string) : string :=
  match k with
  | O => acc
  | S k' => hex_digits k' (n / 16)%N (String (hex_digit (n mod 16)%N) acc)
  end.

Definition str_oid (i : oid) : string := hex_digits 24 i "".

(** [doc["_id"] = str(doc["_id"]) if "_id" in doc else None]: the key is
    always present in a document read from the store. *)
Definition with_str_id (d : document) : gmap string value :=
  <["_id" := VStr (str_oid (doc_id d))]> (to_dict d).

(** ** Queries *)

Inductive cond : Type :=
| CEq (v : value)          (* {field: v} *)
| CExists (b : bool).      (* {field: {"$exists": b}} *)

Definition query := list (string * cond).

(** Equality match: numbers compare by numeric value, everything else by
    type and content. *)
Definition value_eqb (a b : value) : bool :=
  match a, b with
  | VNull, VNull => true
  | VBool x, VBool y => Bool.eqb x y
  | VInt x, VInt y => Z.eqb x y
  | VNum x, VNum y => Qeq_bool x y
  | VInt x, VNum y => Qeq_bool (inject_Z x) y
  | VNum x, VInt y => Qeq_bool x (inject_Z y)
  | VStr x, VStr y => String.eqb x y
  | VTime x, VTime y => Z.eqb x y
  | VOid x, VOid y => N.eqb x y
  | _, _ => false
  end.

(** [{field: None}] matches a field that is null or missing;
    [{"$exists": False}] matches only a missing field: a field bound to
    null exists. *)
Definition cond_holds (c : cond) (o : option value) : bool :=
  match c, o with
  | CEq v, Some w => value_eqb v w
  | CEq VNull, None => true
  | CEq _, None => false
  | CExists b, Some _ => b
  | CExists b, None => negb b
  end.

Definition matches (q : query) (d : document) : bool :=
  forallb (fun kc => cond_holds (snd kc) (to_dict d !! fst kc)) q.

(** ** Sorting *)

Inductive direction := Asc | Desc.    (* 1 and -1 *)

(** BSON comparison order: null, numbers, strings, ObjectId, booleans,
    dates. *)
Definition value_rank (v : value) : Z :=
  match v with
  | VNull => 0
  | VInt _ | VNum _ => 1
  | VStr _ => 2
  | VOid _ => 3
  | VBool _ => 4
  | VTime _ => 5
  end.

Definition value_leb (a b : value) : bool :=
  match a, b with
  | VNull, VNull => true
  | VInt x, VInt y => Z.leb x y
  | VNum x, VNum y => Qle_bool x y
  | VInt x, VNum y => Qle_bool (inject_Z x) y
  | VNum x, VInt y => Qle_bool x (inject_Z y)
  | VStr x, VStr y => String.leb x y
  | VOid x, VOid y => N.leb x y
  | VBool x, VBool y => implb x y
  | VTime x, VTime y => Z.leb x y
  | _, _ => Z.ltb (value_rank a) (value_rank b)
  end.

(** A missing sort key counts as null. *)
Definition sort_key (k : string) (d : document) : value :=
  default VNull (to_dict d !! k).

Definition key_leb (k : string) (dir : direction) (a b : document) : bool :=
  match dir with
  | Asc => value_leb (sort_key k a) (sort_key k b)
  | Desc => value_leb (sort_key k b) (sort_key k a)
  end.

(** Stable insertion sort: documents with equal keys keep natural order. *)
Fixpoint insert_sorted (le : document -> document -> bool)
    (x : document) (l : list document) : list document :=
  match l with
  | [] => [x]
  | y :: l' => if le x y then x :: l else y :: insert_sorted le x l'
  end.

Definition sort_docs (k : string) (dir : direction) (l : list document)
    : list document :=
  foldr (insert_sorted (key_leb k dir)) [] l.

(** [cursor.limit(n)]: 0 means no limit, a negative n limits to |n|. *)
Definition limit_docs (n : Z) (l : list document) : list document :=
  if Z.eqb n 0 then l else take (Z.to_nat (Z.abs n)) l.

(** ** The store *)

Record database : Type := Database {
  collections : gmap string (list document);
  next_oid : oid
}.

Definition empty_db : database := Database ∅ 0%N.

(** [db[name]]: a collection that was never written is empty. *)
Definition coll (db : database) (name : string) : list document :=
  default [] (collections db !! name).

Definition set_coll (name : string) (l : list document) (db : database)
    : database :=
  Database (<[name := l]> (collections db)) (next_oid db).

(** [insert_one]: the store assigns a fresh [_id] and appends. *)
Definition insert_one (name : string) (f : gmap string value) (db : database)
    : database * oid :=
  let i := next_oid db in
  (Database (<[name := coll db name ++ [Document i f]]> (collections db))
            (N.succ i), i).

Definition find (name : string) (q : query) (db : database) : list document :=
  List.filter (matches q) (coll db name).

Definition find_one (name : string) (q : query) (db : database)
    : option document :=
  head (find name q db).

Definition find_one_sorted (name : string) (q : query) (k : string)
    (dir : direction) (db : database) : option document :=
  head (sort_docs k dir (find name q db)).

(** [{"$set": s}] applied to a stored document. *)
Definition apply_set (s : gmap string value) (d : document) : document :=
  Document (doc_id d) (s ∪ doc_fields d).

Fixpoint update_first (q : query) (s : gmap string value)
    (l : list document) : option (list document) :=
  match l with
  | [] => None
  | d :: l' =>
      if matches q d then Some (apply_set s d :: l')
      else option_map (cons d) (update_first q s l')
  end.

(** The equality clauses of a query seed the document of an upsert. *)
Fixpoint query_seed (q : query) : gmap string value :=
  match q with
  | [] => ∅
  | (k, CEq v) :: q' => <[k := v]> (query_seed q')
  | (_, CExists _) :: q' => query_seed q'
  end.

Definition update_one (name : string) (q : query) (s : gmap string value)
    (upsert : bool) (db : database) : database :=
  match update_first q s (coll db name) with
  | Some l => set_coll name l db
  | None =>
      if upsert then fst (insert_one name (s ∪ query_seed q) db) else db
  end.

Fixpoint delete_first (q : query) (l : list document) : list document :=
  match l with
  | [] => []
  | d :: l' => if matches q d then l' else d :: delete_first q l'
  end.

Definition delete_one (name : string) (q : query) (db : database)
    : database :=
  set_coll name (delete_first q (coll db name)) db.

(** Modelled from the spec: [create_document] of [database.py], which is
    not among the sources.  The spec describes the store as supporting
    plain insert and the handlers as receiving the new identifier as a
    string: the document is inserted as given and [str] of its [_id] is
    returned. *)
Definition create_document (name : string) (data : gmap string value)
    (db : database) : database * string :=
  let '(db', i) := insert_one name data db in (db', str_oid i).

(** ** Schemas ([src/schemas.py]) *)

Inductive Mode := auto | manual.    (* Literal["auto", "manual"] *)

Definition Mode_value (m : Mode) : value :=
  match m with auto => VStr "auto" | manual => VStr "manual" end.

(** An optional field of a model prints as null when it is [None]. *)
Definition opt {A} (f : A -> value) (o : option A) : value :=
  match o with Some a => f a | None => VNull end.

Record Device := {
  d_device_id : string;
  d_name : option string;
  d_location : option string;
  d_power : bool;
  d_mode : Mode;
  d_fan_speed : Z;
  d_last_seen : option time
}.

(** [Device(device_id=...)]: every other field takes its default. *)
Definition Device_new (device_id : string) : Device :=
  {| d_device_id := device_id; d_name := None; d_location := None;
     d_power := true; d_mode := auto; d_fan_speed := 1;
     d_last_seen := None |}.

Definition Device_dump (d : Device) : gmap string value :=
  list_to_map
    [("device_id", VStr (d_device_id d)); ("name", opt VStr (d_name d));
     ("location", opt VStr (d_location d)); ("power", VBool (d_power d));
     ("mode", Mode_value (d_mode d)); ("fan_speed", VInt (d_fan_speed d));
     ("last_seen", opt VTime (d_last_seen d))].

Record SensorReading := {
  sr_device_id : string;
  sr_pm2_5 : Q;
  sr_pm10 : Q;
  sr_co2 : option Q;
  sr_tvoc : option Q;
  sr_temperature : option Q;
  sr_humidity : option Q;
  sr_aqi : option Z;
  sr_timestamp : option time
}.

Definition opt_ge0 (o : option Q) : bool :=
  match o with Some q => Qle_bool 0 q | None => true end.

Definition SensorReading_valid (r : SensorReading) : bool :=
  Qle_bool 0 (sr_pm2_5 r) && Qle_bool 0 (sr_pm10 r)
  && opt_ge0 (sr_co2 r) && opt_ge0 (sr_tvoc r)
  && match sr_humidity r with
     | Some h => Qle_bool 0 h && Qle_bool h 100
     | None => true
     end
  && match sr_aqi r with
     | Some a => Z.leb 0 a && Z.leb a 500
     | None => true
     end.

Definition SensorReading_dump (r : SensorReading) : gmap string value :=
  list_to_map
    [("device_id", VStr (sr_device_id r)); ("pm2_5", VNum (sr_pm2_5 r));
     ("pm10", VNum (sr_pm10 r)); ("co2", opt VNum (sr_co2 r));
     ("tvoc", opt VNum (sr_tvoc r));
     ("temperature", opt VNum (sr_temperature r));
     ("humidity", opt VNum (sr_humidity r)); ("aqi", opt VInt (sr_aqi r));
     ("timestamp", opt VTime (sr_timestamp r))].

Record Thresholds := {
  th_device_id : option string;
  th_pm2_5_good : Q;
  th_pm2_5_moderate : Q;
  th_pm10_good : Q;
  th_co2_max : Q;
  th_tvoc_max : Q
}.

(** [Thresholds(device_id=...)]: the schema defaults 12.0, 35.4, 54.0,
    1200.0 and 500.0. *)
Definition Thresholds_new (device_id : option string) : Thresholds :=
  {| th_device_id := device_id; th_pm2_5_good := 12;
     th_pm2_5_moderate := 177 # 5; th_pm10_good := 54;
     th_co2_max := 1200; th_tvoc_max := 500 |}.

Definition Thresholds_valid (t : Thresholds) : bool :=
  Qle_bool 0 (th_pm2_5_good t) && Qle_bool 0 (th_pm2_5_moderate t)
  && Qle_bool 0 (th_pm10_good t) && Qle_bool 0 (th_co2_max t)
  && Qle_bool 0 (th_tvoc_max t).

Definition Thresholds_dump (t : Thresholds) : gmap string value :=
  list_to_map
    [("device_id", opt VStr (th_device_id t));
     ("pm2_5_good", VNum (th_pm2_5_good t));
     ("pm2_5_moderate", VNum (th_pm2_5_moderate t));
     ("pm10_good", VNum (th_pm10_good t));
     ("co2_max", VNum (th_co2_max t)); ("tvoc_max", VNum (th_tvoc_max t))].

Record DeviceCommand := {
  dc_device_id : string;
  dc_power : option bool;
  dc_mode : option Mode;
  dc_fan_speed : option Z
}.

Definition DeviceCommand_valid (c : DeviceCommand) : bool :=
  match dc_fan_speed c with
  | Some n => Z.leb 0 n && Z.leb n 5
  | None => true
  end.

(** [model_dump(exclude_none=True)]: a field that is [None] contributes no
    key at all. *)
Fixpoint dump_exclude_none (l : list (string * option value))
    : gmap string value :=
  match l with
  | [] => ∅
  | (k, Some v) :: l' => <[k := v]> (dump_exclude_none l')
  | (_, None) :: l' => dump_exclude_none l'
  end.

Definition DeviceCommand_dump_exclude_none (c : DeviceCommand)
    : gmap string value :=
  dump_exclude_none
    [("device_id", Some (VStr (dc_device_id c)));
     ("power", option_map VBool (dc_power c));
     ("mode", option_map Mode_value (dc_mode c));
     ("fan_speed", option_map VInt (dc_fan_speed c))].

(** ** Request validation

    The framework validates the body against the schema before the handler
    runs; a body that fails is answered with a validation error and the
    handler is not called. *)

Inductive result (A : Type) : Type :=
| Ok (a : A)
| ValidationError.
Arguments Ok {A} a.
Arguments ValidationError {A}.

Definition validated {A B} (valid : A -> bool) (handler : A -> B)
    (payload : A) : result B :=
  if valid payload then Ok (handler payload) else ValidationError.

(** ** Handlers ([src/main.py]) *)

(** Python's [max(a, b)] and [min(a, b)] return [a] unless [b] is strictly
    better. *)
Definition py_max (a b : Q) : Q := if Qle_bool b a then a else b.
Definition py_min (a b : Q) : Q := if Qle_bool a b then a else b.

(** [x or 0]: [None] and zero are both falsy. *)
Definition or0 (x : option Q) : Q :=
  match x with
  | Some q => if Qeq_bool q 0 then 0 else q
  | None => 0
  end.

(** [int(x)] truncates toward zero. *)
Definition py_int (q : Q) : Z := Z.quot (Qnum q) (Zpos (Qden q)).

Definition compute_aqi (pm25 pm10 : option Q) : option Z :=
  match pm25, pm10 with
  | None, None => None
  | _, _ =>
      let aqi_pm25 := py_min (py_max (or0 pm25 * 5) 0) 500 in
      let aqi_pm10 := py_min (py_max (or0 pm10 * 2) 0) 500 in
      Some (py_int (py_max aqi_pm25 aqi_pm10))
  end.

(** [now_ts] and [now_hb] are the two readings of the clock, for the
    timestamp default and for the heartbeat. *)
Definition ingest_reading (payload : SensorReading) (now_ts now_hb : time)
    (db : database) : database * string :=
  let timestamp :=
    match sr_timestamp payload with Some t => t | None => now_ts end in
  let aqi :=
    match sr_aqi payload with
    | Some a => Some a
    | None => compute_aqi (Some (sr_pm2_5 payload)) (Some (sr_pm10 payload))
    end in
  let data :=
    <["aqi" := opt VInt aqi]>
      (<["timestamp" := VTime timestamp]> (SensorReading_dump payload)) in
  let device_filter := [("device_id", CEq (VStr (sr_device_id payload)))] in
  let existing := find "device" device_filter db in
  let db1 :=
    match existing with
    | _ :: _ =>
        update_one "device" device_filter {["last_seen" := VTime now_hb]}
          false db
    | [] =>
        fst (create_document "device"
               (Device_dump (Device_new (sr_device_id payload))) db)
    end in
  create_document "sensorreading" data db1.

(** A query parameter is used as a filter only when it is truthy: neither
    [None] nor the empty string. *)
Definition truthy (device_id : option string) : option string :=
  match device_id with
  | Some s => if String.eqb s "" then None else Some s
  | None => None
  end.

(** The scope expression of [set_thresholds] and [get_thresholds]. *)
Definition scope_of (device_id : option string) : query :=
  match truthy device_id with
  | Some s => [("device_id", CEq (VStr s))]
  | None => [("device_id", CExists false)]
  end.

Definition set_thresholds (th : Thresholds) (db : database) : database :=
  update_one "thresholds" (scope_of (th_device_id th)) (Thresholds_dump th)
    true db.

Definition get_thresholds (device_id : option string) (db : database)
    : gmap string value :=
  match find_one "thresholds" (scope_of device_id) db with
  | None => Thresholds_dump (Thresholds_new device_id)
  | Some doc => with_str_id doc
  end.

Definition push_command (cmd : DeviceCommand) (now : time) (db : database)
    : database * string :=
  let cmd_doc :=
    <["created_at" := VTime now]> (DeviceCommand_dump_exclude_none cmd) in
  create_document "devicecommand" cmd_doc db.

Definition next_command (device_id : string) (db : database)
    : database * option (gmap string value) :=
  match find_one_sorted "devicecommand" [("device_id", CEq (VStr device_id))]
          "created_at" Asc db with
  | None => (db, None)
  | Some doc =>
      (delete_one "devicecommand" [("_id", CEq (VOid (doc_id doc)))] db,
       Some (with_str_id doc))
  end.

Section Rendering.

(** [datetime.isoformat], a function of the standard library. *)
Variable isoformat : time -> string.

Definition render_value (v : value) : value :=
  match v with VTime t => VStr (isoformat t) | _ => v end.

Definition render_reading (d : document) : gmap string value :=
  <["_id" := VStr (str_oid (doc_id d))]> (render_value <$> to_dict d).

Definition get_latest_readings (device_id : option string) (limit : Z)
    (db : database) : list (gmap string value) :=
  let query :=
    match truthy device_id with
    | Some s => [("device_id", CEq (VStr s))]
    | None => []
    end in
  let docs :=
    limit_docs limit (sort_docs "timestamp" Desc (find "sensorreading" query db)) in
  map render_reading docs.

End Rendering.

(** The endpoints as the client sees them. *)
Definition post_readings (payload : SensorReading) (now_ts now_hb : time)
    (db : database) : result (database * string) :=
  validated SensorReading_valid
    (fun p => ingest_reading p now_ts now_hb db) payload.

Definition post_thresholds (th : Thresholds) (db : database)
    : result database :=
  validated Thresholds_valid (fun t => set_thresholds t db) th.

Definition post_commands (cmd : DeviceCommand) (now : time) (db : database)
    : result (database * string) :=
  validated DeviceCommand_valid (fun c => push_command c now db) cmd.

(** ** Two polls in a race

    A handler runs its store calls one at a time and another request may
    run between them.  [next_command] makes two store calls, [find_one]
    and [delete_one]; a poll in flight is therefore in one of three
    states, and a schedule says which caller moves next. *)

Inductive poll : Type :=
| Polling (device_id : string)                   (* before [find_one] *)
| Found (doc : document)                         (* before [delete_one] *)
| Returned (resp : option (gmap string value)).  (* response sent *)

(** One store call of a poll in flight. *)
Definition poll_step (p : poll) (db : database) : database * poll :=
  match p with
  | Polling device_id =>
      match find_one_sorted "devicecommand" [("device_id", CEq (VStr device_id))]
              "created_at" Asc db with
      | None => (db, Returned None)
      | Some doc => (db, Found doc)
      end
  | Found doc =>
      (delete_one "devicecommand" [("_id", CEq (VOid (doc_id doc)))] db,
       Returned (Some (with_str_id doc)))
  | Returned r => (db, Returned r)
  end.

Inductive caller := CallerA | CallerB.

(** The store and the two polls in flight. *)
Record race : Type := Race {
  race_db : database;
  race_a : poll;
  race_b : poll
}.

Definition race_step (s : race) (c : caller) : race :=
  match c with
  | CallerA =>
      let '(db', p) := poll_step (race_a s) (race_db s) in
      Race db' p (race_b s)
  | CallerB =>
      let '(db', p) := poll_step (race_b s) (race_db s) in
      Race db' (race_a s) p
  end.

Definition run_race (sched : list caller) (s : race) : race :=
  fold_left race_step sched s.

(** The command a caller has been answered with, if any. *)
Definition delivered (p : poll) : option (gmap string value) :=
  match p with Returned r => r | _ => None end.

(** ** Definitions for the statements *)

(** The identifiers of a collection, in natural order. *)
Definition ids (l : list document) : list oid := map doc_id l.

(** The store keeps [_id] unique within a collection, and every identifier
    in use was issued before the next fresh one. *)
Definition wf_coll (db : database) (name : string) : Prop :=
  NoDup (ids (coll db name)) /\
  Forall (fun d => (doc_id d < next_oid db)%N) (coll db name).

(** The filter of [next_command]. *)
Definition for_device (device_id : string) : query :=
  [("device_id", CEq (VStr device_id))].

(** Repeated polls of one device, with their answers in order. *)
Fixpoint poll_n (n : nat) (device_id : string) (db : database)
    : database * list (option (gmap string value)) :=
  match n with
  | O => (db, [])
  | S n' =>
      let '(db1, r) := next_command device_id db in
      let '(db2, rs) := poll_n n' device_id db1 in
      (db2, r :: rs)
  end.

(** Successive enqueues, each with the instant its handler read. *)
Fixpoint push_all (cs : list (DeviceCommand * time)) (db : database)
    : database :=
  match cs with
  | [] => db
  | (c, t) :: cs' => push_all cs' (fst (push_command c t db))
  end.

(** The document [push_command] stores for a command. *)
Definition stored_command (i : oid) (c : DeviceCommand) (t : time)
    : document :=
  Document i (<["created_at" := VTime t]> (DeviceCommand_dump_exclude_none c)).

(** The documents of successive enqueues, the first under [_id] [i]. *)
Fixpoint stored_commands (i : oid) (cs : list (DeviceCommand * time))
    : list document :=
  match cs with
  | [] => []
  | (c, t) :: cs' => stored_command i c t :: stored_commands (N.succ i) cs'
  end.

(** The invariant of a race that started from the store [db0]. *)
Definition race_inv (db0 : database) (s : race) : Prop :=
  NoDup (ids (coll (race_db s) "devicecommand")) /\
  (forall x, x ∈ coll (race_db s) "devicecommand" ->
             x ∈ coll db0 "devicecommand") /\
  (forall x, x ∈ coll db0 "devicecommand" ->
             x ∉ coll (race_db s) "devicecommand" ->
             delivered (race_a s) = Some (with_str_id x) \/
             delivered (race_b s) = Some (with_str_id x)) /\
  (forall d, race_a s = Found d -> d ∈ coll db0 "devicecommand") /\
  (forall d, race_b s = Found d -> d ∈ coll db0 "devicecommand").

(** The document binds [device_id], be it to null. *)
Definition has_device_id (d : document) : Prop :=
  is_Some (doc_fields d !! "device_id").

(** The spec's formula, [clamp(max(pm2_5*5, pm10*2), 0, 500)]. *)
Definition spec_aqi (pm2_5 pm10 : Q) : Q :=
  Qmin (Qmax (Qmax (pm2_5 * 5) (pm10 * 2)) 0) 500.

(** The reading [ingest_reading] has just stored. *)
Definition stored_reading (payload : SensorReading) (now_ts now_hb : time)
    (db : database) : option document :=
  last (coll (fst (ingest_reading payload now_ts now_hb db)) "sensorreading").

(** ** Sample inputs *)

(** The commands of the spec's scenario. *)
Definition cmd_fan3 : DeviceCommand :=
  {| dc_device_id := "d1"; dc_power := None; dc_mode := None;
     dc_fan_speed := Some 3 |}.

Definition cmd_off : DeviceCommand :=
  {| dc_device_id := "d1"; dc_power := Some false; dc_mode := None;
     dc_fan_speed := None |}.

(** A command whose [device_id] is the empty string. *)
Definition cmd_no_device : DeviceCommand :=
  {| dc_device_id := ""; dc_power := None; dc_mode := None;
     dc_fan_speed := Some 3 |}.

(** The store of the spec's scenario: two commands queued for ["d1"]. *)
Definition db_two_commands : database :=
  push_all [(cmd_fan3, 10); (cmd_off, 20)] empty_db.

(** One command queued for ["d1"]. *)
Definition db_one_command : database :=
  push_all [(cmd_fan3, 10)] empty_db.

(** The reading of the spec's first AQI example. *)
Definition reading_d1 : SensorReading :=
  {| sr_device_id := "d1"; sr_pm2_5 := 10; sr_pm10 := 5; sr_co2 := None;
     sr_tvoc := None; sr_temperature := None; sr_humidity := None;
     sr_aqi := None; sr_timestamp := None |}.

(** A reading whose scaled PM2.5 is not an integer. *)
Definition reading_half : SensorReading :=
  {| sr_device_id := "d1"; sr_pm2_5 := 1 # 2; sr_pm10 := 0; sr_co2 := None;
     sr_tvoc := None; sr_temperature := None; sr_humidity := None;
     sr_aqi := None; sr_timestamp := None |}.

(** A global write of the schema defaults. *)
Definition th_default : Thresholds := Thresholds_new None.

(** A global write that raises [pm2_5_good] to 20. *)
Definition th_custom : Thresholds :=
  {| th_device_id := None; th_pm2_5_good := 20;
     th_pm2_5_moderate := 177 # 5; th_pm10_good := 54;
     th_co2_max := 1200; th_tvoc_max := 500 |}.

(** ** Definitions for the further properties *)

(** Every collection of the store is well formed. *)
Definition wf_db (db : database) : Prop :=
  forall name, wf_coll db name.

(** Successive threshold writes, the head of the list first. *)
Definition set_all (ths : list Thresholds) (db : database) : database :=
  fold_left (fun db th => set_thresholds th db) ths db.

(** A per-device write for ["d1"] that raises [pm2_5_good] to 15. *)
Definition th_d1 : Thresholds :=
  {| th_device_id := Some "d1"; th_pm2_5_good := 15;
     th_pm2_5_moderate := 177 # 5; th_pm10_good := 54;
     th_co2_max := 1200; th_tvoc_max := 500 |}.

(** The enqueue instant a stored command carries, if it carries one. *)
Definition created_at (d : document) : option time :=
  match doc_fields d !! "created_at" with
  | Some (VTime t) => Some t
  | _ => None
  end.

(** What a client does to the queue of one device: any enqueue (for that
    device or another) with the instant its handler read, or a poll of
    that device. *)
Inductive queue_op : Type :=
| Enqueue (c : DeviceCommand) (t : time)
| Dequeue.

(** The handlers run on a trace; the answers of the polls, in order. *)
Fixpoint run_queue (device_id : string) (ops : list queue_op) (db : database)
    : database * list (option (gmap string value)) :=
  match ops with
  | [] => (db, [])
  | Enqueue c t :: ops' => run_queue device_id ops' (fst (push_command c t db))
  | Dequeue :: ops' =>
      let '(db1, r) := next_command device_id db in
      let '(db2, rs) := run_queue device_id ops' db1 in
      (db2, r :: rs)
  end.

(** The reference: a first-in first-out queue of the device's commands.
    [i] is the identifier the next enqueue will be given. *)
Fixpoint fifo_model (device_id : string) (ops : list queue_op) (i : oid)
    (q : list document) : list (option (gmap string value)) :=
  match ops with
  | [] => []
  | Enqueue c t :: ops' =>
      fifo_model device_id ops' (N.succ i)
        (if String.eqb (dc_device_id c) device_id
         then q ++ [stored_command i c t] else q)
  | Dequeue :: ops' =>
      match q with
      | [] => None :: fifo_model device_id ops' i []
      | x :: q' => Some (with_str_id x) :: fifo_model device_id ops' i q'
      end
  end.

Fixpoint enqueue_times (ops : list queue_op) : list time :=
  match ops with
  | [] => []
  | Enqueue _ t :: ops' => t :: enqueue_times ops'
  | Dequeue :: ops' => enqueue_times ops'
  end.

(** A command for another device. *)
Definition cmd_d2 : DeviceCommand :=
  {| dc_device_id := "d2"; dc_power := Some true; dc_mode := Some manual;
     dc_fan_speed := None |}.

(** What a poll of [device_id] in flight may hold, on a race that started
    from the store [db0]: a stored command of that device. *)
Definition poll_ok (db0 : database) (device_id : string) (p : poll) : Prop :=
  match p with
  | Polling device_id' => device_id' = device_id
  | Found d =>
      d ∈ coll db0 "devicecommand" /\
      doc_fields d !! "device_id" = Some (VStr device_id)
  | Returned None => True
  | Returned (Some cmd) =>
      exists d, d ∈ coll db0 "devicecommand" /\
                doc_fields d !! "device_id" = Some (VStr device_id) /\
                cmd = with_str_id d
  end.

(** The instant a stored reading carries, if it carries one. *)
Definition reading_time (d : document) : option time :=
  match doc_fields d !! "timestamp" with
  | Some (VTime t) => Some t
  | _ => None
  end.

(** Two readings of ["d1"] and one of ["d2"], ingested in this order. *)
Definition reading_d2 : SensorReading :=
  {| sr_device_id := "d2"; sr_pm2_5 := 30; sr_pm10 := 40; sr_co2 := None;
     sr_tvoc := None; sr_temperature := None; sr_humidity := None;
     sr_aqi := Some 77; sr_timestamp := Some 150 |}.

Definition db_three_readings : database :=
  fst (ingest_reading reading_half 300 301
         (fst (ingest_reading reading_d2 200 201
                (fst (ingest_reading reading_d1 100 101 empty_db))))).

(** ** Binary floating point

    [compute_aqi] above multiplies exactly.  The source multiplies
    binary64 floats: [x * 5] is the exact product rounded to a
    representable number.  The definitions of this section are the same
    code with that rounding written out, as a parameter [fl] from the
    exact product to the float the multiplication returns; the numbers
    are the finite floats, read as the rationals they are.  Where a
    theorem needs to know something of [fl] it assumes what rounding to
    nearest gives: that it is monotone and that it returns the whole
    numbers from 0 to 500 unchanged.  (A product that overflows is
    rounded to infinity; here it may be taken as any number above 500,
    the clamp gives 500 either way.) *)

Section Rounded.

Variable fl : Q -> Q.

Definition compute_aqi_fl (pm25 pm10 : option Q) : option Z :=
  match pm25, pm10 with
  | None, None => None
  | _, _ =>
      let aqi_pm25 := py_min (py_max (fl (or0 pm25 * 5)) 0) 500 in
      let aqi_pm10 := py_min (py_max (fl (or0 pm10 * 2)) 0) 500 in
      Some (py_int (py_max aqi_pm25 aqi_pm10))
  end.

Definition ingest_reading_fl (payload : SensorReading) (now_ts now_hb : time)
    (db : database) : database * string :=
  let timestamp :=
    match sr_timestamp payload with Some t => t | None => now_ts end in
  let aqi :=
    match sr_aqi payload with
    | Some a => Some a
    | None =>
        compute_aqi_fl (Some (sr_pm2_5 payload)) (Some (sr_pm10 payload))
    end in
  let data :=
    <["aqi" := opt VInt aqi]>
      (<["timestamp" := VTime timestamp]> (SensorReading_dump payload)) in
  let device_filter := [("device_id", CEq (VStr (sr_device_id payload)))] in
  let existing := find "device" device_filter db in
  let db1 :=
    match existing with
    | _ :: _ =>
        update_one "device" device_filter {["last_seen" := VTime now_hb]}
          false db
    | [] =>
        fst (create_document "device"
               (Device_dump (Device_new (sr_device_id payload))) db)
    end in
  create_document "sensorreading" data db1.

End Rounded.

(** Rounding never reverses the order of two numbers. *)
Definition rounding_monotone (fl : Q -> Q) : Prop :=
  forall x y, (x <= y)%Q -> (fl x <= fl y)%Q.

(** The whole numbers from 0 to 500 are floats: rounding returns them. *)
Definition rounding_exact (fl : Q -> Q) : Prop :=
  forall n : Z, 0 <= n <= 500 -> fl (inject_Z n) == inject_Z n.

(** The spec's formula on the rounded products. *)
Definition spec_aqi_fl (fl : Q -> Q) (pm2_5 pm10 : Q) : Q :=
  Qmin (Qmax (Qmax (fl (pm2_5 * 5)%Q) (fl (pm10 * 2)%Q)) 0) 500.

(** The reading [ingest_reading_fl] has just stored. *)
Definition stored_reading_fl (fl : Q -> Q) (payload : SensorReading)
    (now_ts now_hb : time) (db : database) : option document :=
  last (coll (fst (ingest_reading_fl fl payload now_ts now_hb db))
          "sensorreading").

(** ** The order of delivery *)

(** [a] was enqueued before [b], by the instants they carry. *)
Definition older (a b : document) : Prop :=
  exists ta tb, created_at a = Some ta /\ created_at b = Some tb /\ ta < tb.

(** * Properties *)

(** ** The store *)

Lemma coll_set_coll_eq name l db : coll (set_coll name l db) name = l.
Proof. unfold coll, set_coll; simpl. by rewrite lookup_insert_eq. Qed.

Lemma coll_set_coll_ne name name' l db :
  name <> name' -> coll (set_coll name l db) name' = coll db name'.
Proof. intros H. unfold coll, set_coll; simpl. by rewrite lookup_insert_ne. Qed.

Lemma coll_insert_one_eq name f db :
  coll (fst (insert_one name f db)) name
  = coll db name ++ [Document (next_oid db) f].
Proof. unfold coll, insert_one; simpl. by rewrite lookup_insert_eq. Qed.

Lemma coll_insert_one_ne name name' f db :
  name <> name' -> coll (fst (insert_one name f db)) name' = coll db name'.
Proof. intros H. unfold coll, insert_one; simpl. by rewrite lookup_insert_ne. Qed.

Lemma create_document_fst name f db :
  fst (create_document name f db) = fst (insert_one name f db).
Proof. reflexivity. Qed.

Lemma to_dict_id d : to_dict d !! "_id" = Some (VOid (doc_id d)).
Proof. unfold to_dict. by rewrite lookup_insert_eq. Qed.

Lemma to_dict_field d k :
  k <> "_id" -> to_dict d !! k = doc_fields d !! k.
Proof. intros H. unfold to_dict. by rewrite lookup_insert_ne. Qed.

Lemma matches_id i d :
  matches [("_id", CEq (VOid i))] d = N.eqb i (doc_id d).
Proof.
  unfold matches; simpl. rewrite to_dict_id; simpl. apply andb_true_r.
Qed.

(** Deleting by a unique [_id] removes exactly the document that bears it. *)
Lemma delete_first_id l1 d l2 :
  NoDup (ids (l1 ++ d :: l2)) ->
  delete_first [("_id", CEq (VOid (doc_id d)))] (l1 ++ d :: l2) = l1 ++ l2.
Proof.
  induction l1 as [|x l1 IH]; cbn [app delete_first]; intros Hnd.
  - by rewrite matches_id, N.eqb_refl.
  - rewrite matches_id. inversion Hnd as [|? ? Hx Hnd']; subst.
    destruct (N.eqb_spec (doc_id d) (doc_id x)) as [E|_].
    + exfalso. apply Hx. unfold ids. rewrite map_app; simpl.
      rewrite <- E. apply elem_of_app. right. left.
    + f_equal. by apply IH.
Qed.

Lemma NoDup_ids_remove l1 x l2 :
  NoDup (ids (l1 ++ x :: l2)) -> NoDup (ids (l1 ++ l2)).
Proof.
  unfold ids. rewrite !map_app. cbn [map].
  rewrite !NoDup_app, NoDup_cons. intros (H1 & H2 & _ & H3).
  split_and!; [done | | done].
  intros y Hy Hy'. apply (H2 y Hy). by right.
Qed.

Lemma delete_first_absent q l :
  Forall (fun d => matches q d = false) l -> delete_first q l = l.
Proof.
  induction 1 as [|x l Hx _ IH]; simpl; [done|]. by rewrite Hx, IH.
Qed.

Lemma insert_sorted_elem le x l y :
  y ∈ insert_sorted le x l <-> y = x \/ y ∈ l.
Proof.
  induction l as [|z l IH]; simpl.
  - rewrite !elem_of_cons. tauto.
  - destruct (le x z); rewrite !elem_of_cons; [tauto|]. rewrite IH. tauto.
Qed.

Lemma sort_docs_elem k dir l y : y ∈ sort_docs k dir l <-> y ∈ l.
Proof.
  unfold sort_docs. induction l as [|x l IH]; simpl; [done|].
  rewrite insert_sorted_elem, IH, elem_of_cons. tauto.
Qed.

(** A first document that is no later than the others stays first. *)
Lemma sort_docs_head k dir x l :
  Forall (fun y => key_leb k dir x y = true) l ->
  head (sort_docs k dir (x :: l)) = Some x.
Proof.
  intros H. unfold sort_docs; simpl. fold (sort_docs k dir l).
  destruct (sort_docs k dir l) as [|y s] eqn:E; simpl; [done|].
  assert (Hy : y ∈ l) by (apply (sort_docs_elem k dir); rewrite E; left).
  rewrite Forall_forall in H. by rewrite (H y Hy).
Qed.

Lemma find_one_sorted_elem name q k dir db d :
  find_one_sorted name q k dir db = Some d ->
  d ∈ coll db name /\ matches q d = true.
Proof.
  unfold find_one_sorted, find. intros H.
  assert (Hd : d ∈ List.filter (matches q) (coll db name)).
  { apply (sort_docs_elem k dir). apply head_Some_elem_of. exact H. }
  apply list_elem_of_In, filter_In in Hd as [Hd Hm].
  split; [by apply list_elem_of_In | done].
Qed.

Lemma find_one_sorted_None name q k dir db :
  find_one_sorted name q k dir db = None -> find name q db = [].
Proof.
  unfold find_one_sorted. intros H.
  destruct (find name q db) as [|x l] eqn:E; [done|]. exfalso.
  assert (Hx : x ∈ sort_docs k dir (x :: l)) by (apply sort_docs_elem; left).
  destruct (sort_docs k dir (x :: l)); [by apply elem_of_nil in Hx | done].
Qed.

(** ** The command queue *)

Lemma matches_for_device device_id d :
  matches (for_device device_id) d = true <->
  doc_fields d !! "device_id" = Some (VStr device_id).
Proof.
  unfold matches, for_device; cbn [forallb fst snd].
  rewrite to_dict_field by done. rewrite andb_true_r.
  destruct (doc_fields d !! "device_id") as [v|]; cbn [cond_holds].
  - destruct v; cbn [value_eqb]; try (split; [discriminate | congruence]).
    rewrite String.eqb_eq. split; congruence.
  - split; discriminate.
Qed.

Lemma filter_none {A} (f : A -> bool) l :
  Forall (fun x => f x = false) l -> List.filter f l = [].
Proof. induction 1 as [|x l Hx _ IH]; simpl; [done|]. by rewrite Hx. Qed.

Lemma filter_all {A} (f : A -> bool) l :
  Forall (fun x => f x = true) l -> List.filter f l = l.
Proof. induction 1 as [|x l Hx _ IH]; simpl; [done|]. by rewrite Hx, IH. Qed.

(** What one poll does when the store is well formed: the document found
    is the one removed, and nothing else moves. *)
Lemma next_command_found device_id db d :
  NoDup (ids (coll db "devicecommand")) ->
  find_one_sorted "devicecommand" (for_device device_id) "created_at" Asc db
    = Some d ->
  exists l1 l2,
    coll db "devicecommand" = l1 ++ d :: l2 /\
    next_command device_id db
      = (set_coll "devicecommand" (l1 ++ l2) db, Some (with_str_id d)).
Proof.
  intros Hnd Hf.
  destruct (find_one_sorted_elem _ _ _ _ _ _ Hf) as [Hin _].
  apply list_elem_of_split in Hin as (l1 & l2 & E).
  exists l1, l2. split; [done|].
  unfold next_command. fold (for_device device_id). rewrite Hf.
  unfold delete_one. rewrite E. rewrite delete_first_id; [done|].
  by rewrite <- E.
Qed.

Lemma next_command_empty device_id db :
  find "devicecommand" (for_device device_id) db = [] ->
  next_command device_id db = (db, None).
Proof.
  intros H. unfold next_command, find_one_sorted.
  fold (for_device device_id). by rewrite H.
Qed.

Lemma push_command_coll c t db :
  coll (fst (push_command c t db)) "devicecommand"
  = coll db "devicecommand" ++ [stored_command (next_oid db) c t].
Proof.
  unfold push_command. rewrite create_document_fst.
  by rewrite coll_insert_one_eq.
Qed.

Lemma push_command_coll_ne c t db name :
  name <> "devicecommand" ->
  coll (fst (push_command c t db)) name = coll db name.
Proof.
  intros H. unfold push_command. rewrite create_document_fst.
  by rewrite coll_insert_one_ne.
Qed.

Lemma push_command_next_oid c t db :
  next_oid (fst (push_command c t db)) = N.succ (next_oid db).
Proof. reflexivity. Qed.

Lemma push_all_coll cs : forall db,
  coll (push_all cs db) "devicecommand"
  = coll db "devicecommand" ++ stored_commands (next_oid db) cs.
Proof.
  induction cs as [|[c t] cs IH]; intros db; cbn [push_all stored_commands].
  - by rewrite app_nil_r.
  - rewrite IH, push_command_coll, push_command_next_oid.
    by rewrite <- app_assoc.
Qed.

Lemma stored_commands_ids_ge cs : forall i,
  Forall (fun d => (i <= doc_id d)%N) (stored_commands i cs).
Proof.
  induction cs as [|[c t] cs IH]; intros i; cbn [stored_commands];
    constructor; simpl; [lia|].
  eapply Forall_impl; [apply IH|]. simpl. intros; lia.
Qed.

Lemma stored_commands_NoDup cs : forall i,
  NoDup (ids (stored_commands i cs)).
Proof.
  induction cs as [|[c t] cs IH]; intros i; cbn [stored_commands ids map].
  - constructor.
  - constructor; [|apply IH].
    intros Hin. apply list_elem_of_fmap in Hin as (d & E & Hd).
    pose proof (stored_commands_ids_ge cs (N.succ i)) as Hge.
    rewrite Forall_forall in Hge. specialize (Hge d Hd). simpl in E. lia.
Qed.

Lemma stored_command_device i c t :
  doc_fields (stored_command i c t) !! "device_id"
  = Some (VStr (dc_device_id c)).
Proof.
  unfold stored_command, DeviceCommand_dump_exclude_none; simpl.
  rewrite lookup_insert_ne by done. by rewrite lookup_insert_eq.
Qed.

Lemma stored_command_key i c t :
  sort_key "created_at" (stored_command i c t) = VTime t.
Proof.
  unfold sort_key. rewrite to_dict_field by done.
  unfold stored_command; simpl. by rewrite lookup_insert_eq.
Qed.

Lemma stored_commands_elem d cs : forall i,
  d ∈ stored_commands i cs ->
  exists j c t, (c, t) ∈ cs /\ d = stored_command j c t.
Proof.
  induction cs as [|[c t] cs IH]; intros i; cbn [stored_commands];
    intros H.
  - by apply elem_of_nil in H.
  - apply elem_of_cons in H as [->|H].
    + exists i, c, t. split; [left | done].
    + destruct (IH _ H) as (j & c' & t' & Hin & ->).
      exists j, c', t'. split; [by right | done].
Qed.

Lemma poll_n_empty k device_id db :
  find "devicecommand" (for_device device_id) db = [] ->
  poll_n k device_id db = (db, replicate k None).
Proof.
  intros H. induction k as [|k IH]; cbn [poll_n replicate]; [done|].
  by rewrite (next_command_empty _ _ H), IH.
Qed.

Lemma find_nil_Forall name q db :
  find name q db = [] ->
  Forall (fun d => matches q d = false) (coll db name).
Proof.
  unfold find. induction (coll db name) as [|x l IH]; simpl; [done|].
  destruct (matches q x) eqn:E; [done|]. intros H. constructor; auto.
Qed.

Lemma stored_commands_length cs : forall i,
  length (stored_commands i cs) = length cs.
Proof.
  induction cs as [|[c t] cs IH]; intros i; simpl; [done|]. by rewrite IH.
Qed.

(** C10. Frame of a poll: on a store whose [_id]s are unique, a
    [next_command] that returns a command removes exactly that one
    document from [devicecommand] -- the documents before and after it,
    whether of the same device or of another, stay as they were and in
    their order -- and leaves every other collection alone; a
    [next_command] that returns the empty result leaves the store
    unchanged. *)
Theorem next_command_frame device_id db :
  NoDup (ids (coll db "devicecommand")) ->
  match next_command device_id db with
  | (db', Some cmd) =>
      exists l1 d l2,
        coll db "devicecommand" = l1 ++ d :: l2 /\
        cmd = with_str_id d /\
        doc_fields d !! "device_id" = Some (VStr device_id) /\
        coll db' "devicecommand" = l1 ++ l2 /\
        (forall name, name <> "devicecommand" -> coll db' name = coll db name) /\
        next_oid db' = next_oid db
  | (db', None) => db' = db
  end.
Proof.
  intros Hnd.
  destruct (find_one_sorted "devicecommand" (for_device device_id)
              "created_at" Asc db) as [d|] eqn:Hf.
  - destruct (next_command_found _ _ _ Hnd Hf) as (l1 & l2 & E & ->).
    exists l1, d, l2. split_and!; try done.
    + apply matches_for_device. by destruct (find_one_sorted_elem _ _ _ _ _ _ Hf).
    + by rewrite coll_set_coll_eq.
    + intros name Hne. by rewrite coll_set_coll_ne.
  - by rewrite (next_command_empty _ _ (find_one_sorted_None _ _ _ _ _ Hf)).
Qed.

Lemma next_command_frame_witness :
  NoDup (ids (coll db_two_commands "devicecommand")) /\
  match next_command "d1" db_two_commands with
  | (db', Some cmd) =>
      exists l1 d l2,
        coll db_two_commands "devicecommand" = l1 ++ d :: l2 /\
        cmd = with_str_id d /\
        doc_fields d !! "device_id" = Some (VStr "d1") /\
        coll db' "devicecommand" = l1 ++ l2 /\
        (forall name, name <> "devicecommand" ->
                      coll db' name = coll db_two_commands name) /\
        next_oid db' = next_oid db_two_commands
  | (db', None) => db' = db_two_commands
  end.
Proof.
  assert (H : NoDup (ids (coll db_two_commands "devicecommand"))).
  { vm_compute. repeat constructor; rewrite ?elem_of_cons, ?elem_of_nil;
      intuition discriminate. }
  split; [exact H | exact (next_command_frame "d1" db_two_commands H)].
Defined.

(** ** Two polls in a race *)

(** Run to its end without interruption, a poll in flight is
    [next_command]. *)
Lemma poll_step_twice device_id db :
  (let '(db1, p1) := poll_step (Polling device_id) db in poll_step p1 db1)
  = (let '(db', r) := next_command device_id db in (db', Returned r)).
Proof.
  unfold next_command. cbn [poll_step].
  by destruct (find_one_sorted _ _ _ _ db).
Qed.

Lemma NoDup_ids_inj l x y :
  NoDup (ids l) -> x ∈ l -> y ∈ l -> doc_id x = doc_id y -> x = y.
Proof.
  induction l as [|z l IH]; cbn [ids map]; intros Hnd Hx Hy E.
  - by apply elem_of_nil in Hx.
  - apply NoDup_cons in Hnd as [Hz Hnd].
    apply elem_of_cons in Hx as [->|Hx]; apply elem_of_cons in Hy as [->|Hy];
      try done.
    + exfalso. apply Hz. rewrite E. by apply list_elem_of_fmap_2.
    + exfalso. apply Hz. rewrite <- E. by apply list_elem_of_fmap_2.
    + by apply IH.
Qed.

(** What [delete_one] by [_id] does to a collection with unique ids: it
    removes the document if it is still there and nothing otherwise. *)
Lemma delete_first_by_id l d :
  NoDup (ids l) ->
  NoDup (ids (delete_first [("_id", CEq (VOid (doc_id d)))] l)) /\
  forall x, x ∈ l ->
    x ∈ delete_first [("_id", CEq (VOid (doc_id d)))] l \/
    doc_id x = doc_id d.
Proof.
  induction l as [|z l IH]; cbn [delete_first]; intros Hnd.
  - split; [done|]. intros x Hx. by apply elem_of_nil in Hx.
  - rewrite matches_id. cbn [ids map] in Hnd.
    apply NoDup_cons in Hnd as [Hz Hnd].
    destruct (N.eqb_spec (doc_id d) (doc_id z)) as [E|Hne].
    + split; [done|]. intros x Hx.
      apply elem_of_cons in Hx as [->|Hx]; [by right | by left].
    + destruct (IH Hnd) as [IH1 IH2]. split.
      * cbn [ids map]. apply NoDup_cons. split; [|done].
        intros Hin. apply Hz.
        apply list_elem_of_fmap in Hin as (y & -> & Hy).
        apply list_elem_of_fmap_2.
        clear -Hy. induction l as [|w l IHl]; cbn [delete_first] in Hy.
        -- done.
        -- destruct (matches _ w); [by right|].
           apply elem_of_cons in Hy as [->|Hy]; [left | right; auto].
      * intros x Hx. apply elem_of_cons in Hx as [->|Hx]; [left; left|].
        destruct (IH2 x Hx) as [H|H]; [left; by right | by right].
Qed.

Lemma delete_first_sub q l x : x ∈ delete_first q l -> x ∈ l.
Proof.
  induction l as [|w l IH]; cbn [delete_first]; [done|].
  destruct (matches q w); [by right|].
  intros H. apply elem_of_cons in H as [->|H]; [left | right; auto].
Qed.

Lemma elem_of_sub_dec (l0 l : list document) x :
  NoDup (ids l0) -> (forall y, y ∈ l -> y ∈ l0) -> x ∈ l0 ->
  x ∈ l \/ x ∉ l.
Proof.
  intros Hnd Hsub Hx.
  destruct (decide (doc_id x ∈ ids l)) as [Hin|Hout].
  - left. apply list_elem_of_fmap in Hin as (y & E & Hy).
    by rewrite (NoDup_ids_inj l0 x y Hnd Hx (Hsub y Hy) E).
  - right. intros Hin. apply Hout. by apply list_elem_of_fmap_2.
Qed.

Lemma poll_step_inv db0 db p other :
  NoDup (ids (coll db0 "devicecommand")) ->
  NoDup (ids (coll db "devicecommand")) ->
  (forall x, x ∈ coll db "devicecommand" -> x ∈ coll db0 "devicecommand") ->
  (forall x, x ∈ coll db0 "devicecommand" -> x ∉ coll db "devicecommand" ->
             delivered p = Some (with_str_id x) \/
             delivered other = Some (with_str_id x)) ->
  (forall d, p = Found d -> d ∈ coll db0 "devicecommand") ->
  let '(db', p') := poll_step p db in
  NoDup (ids (coll db' "devicecommand")) /\
  (forall x, x ∈ coll db' "devicecommand" -> x ∈ coll db0 "devicecommand") /\
  (forall x, x ∈ coll db0 "devicecommand" -> x ∉ coll db' "devicecommand" ->
             delivered p' = Some (with_str_id x) \/
             delivered other = Some (with_str_id x)) /\
  (forall d, p' = Found d -> d ∈ coll db0 "devicecommand").
Proof.
  intros Hnd0 Hnd Hsub Hdel Hfound.
  destruct p as [device_id | doc | r]; cbn [poll_step].
  - destruct (find_one_sorted _ _ _ _ db) as [doc|] eqn:Hf.
    + split_and!; try done.
      intros d [= <-]. apply Hsub.
      by destruct (find_one_sorted_elem _ _ _ _ _ _ Hf).
    + split_and!; done.
  - unfold delete_one. rewrite coll_set_coll_eq.
    destruct (delete_first_by_id _ doc Hnd) as [H1 H2].
    split_and!; try done.
    + intros x Hx. apply Hsub. by apply delete_first_sub in Hx.
    + intros x Hx Hx'. cbn [delivered].
      destruct (elem_of_sub_dec _ _ x Hnd0 Hsub Hx) as [Hin|Hout].
      * destruct (H2 x Hin) as [H|H]; [done|]. left. f_equal. f_equal.
        apply (NoDup_ids_inj (coll db0 "devicecommand")); auto.
      * destruct (Hdel x Hx Hout) as [H|H]; [done | by right].
  - split_and!; try done.
Qed.

Lemma race_step_inv db0 s c :
  NoDup (ids (coll db0 "devicecommand")) ->
  race_inv db0 s -> race_inv db0 (race_step s c).
Proof.
  intros Hnd0 (Hnd & Hsub & Hdel & Ha & Hb).
  destruct s as [db pa pb]; cbn [race_db race_a race_b] in *.
  destruct c; cbn [race_step race_db race_a race_b].
  - pose proof (poll_step_inv db0 db pa pb Hnd0 Hnd Hsub Hdel Ha) as H.
    destruct (poll_step pa db) as [db' p'].
    destruct H as (H1 & H2 & H3 & H4). by split_and!.
  - assert (Hdel' : forall x, x ∈ coll db0 "devicecommand" ->
        x ∉ coll db "devicecommand" ->
        delivered pb = Some (with_str_id x) \/
        delivered pa = Some (with_str_id x)).
    { intros x Hx Hx'. destruct (Hdel x Hx Hx'); [by right | by left]. }
    pose proof (poll_step_inv db0 db pb pa Hnd0 Hnd Hsub Hdel' Hb) as H.
    destruct (poll_step pb db) as [db' p'].
    destruct H as (H1 & H2 & H3 & H4). split_and!; try done.
    intros x Hx Hx'. destruct (H3 x Hx Hx'); [by right | by left].
Qed.

Lemma run_race_inv db0 sched : forall s,
  NoDup (ids (coll db0 "devicecommand")) ->
  race_inv db0 s -> race_inv db0 (run_race sched s).
Proof.
  induction sched as [|c sched IH]; intros s Hnd0 Hs; [done|].
  cbn [run_race fold_left]. apply IH; [done|]. by apply race_step_inv.
Qed.

(** One caller after the other: two sequential calls of [next_command]. *)
Lemma run_race_sequential device_a device_b db :
  run_race [CallerA; CallerA; CallerB; CallerB]
    (Race db (Polling device_a) (Polling device_b))
  = let '(db1, ra) := next_command device_a db in
    let '(db2, rb) := next_command device_b db1 in
    Race db2 (Returned ra) (Returned rb).
Proof.
  unfold run_race, next_command.
  cbn [fold_left race_step race_db race_a race_b poll_step].
  destruct (find_one_sorted _ _ _ _ db) as [x|];
    cbn [race_step race_db race_a race_b poll_step].
  - destruct (find_one_sorted _ _ _ _ (delete_one _ _ db)) as [y|];
      by cbn [race_step race_db race_a race_b poll_step].
  - destruct (find_one_sorted _ _ _ _ db) as [y|];
      by cbn [race_step race_db race_a race_b poll_step].
Qed.

(** Two sequential polls never hand out the same document. *)
Lemma next_command_twice_distinct device_a device_b db :
  NoDup (ids (coll db "devicecommand")) ->
  forall db1 db2 a b,
    next_command device_a db = (db1, Some a) ->
    next_command device_b db1 = (db2, Some b) ->
    exists x y,
      x ∈ coll db "devicecommand" /\ y ∈ coll db "devicecommand" /\
      doc_id x <> doc_id y /\ a = with_str_id x /\ b = with_str_id y.
Proof.
  intros Hnd db1 db2 a b Ha Hb.
  destruct (find_one_sorted "devicecommand" (for_device device_a)
              "created_at" Asc db) as [x|] eqn:Hfa.
  2:{ rewrite (next_command_empty _ _ (find_one_sorted_None _ _ _ _ _ Hfa))
        in Ha. discriminate. }
  destruct (next_command_found _ _ _ Hnd Hfa) as (l1 & l2 & E & Hn).
  rewrite Hn in Ha. injection Ha as <- <-.
  assert (Hc1 : coll (set_coll "devicecommand" (l1 ++ l2) db) "devicecommand"
                = l1 ++ l2) by apply coll_set_coll_eq.
  assert (Hnd1 : NoDup (ids (l1 ++ l2))).
  { apply (NoDup_ids_remove l1 x l2). by rewrite <- E. }
  destruct (find_one_sorted "devicecommand" (for_device device_b)
              "created_at" Asc (set_coll "devicecommand" (l1 ++ l2) db))
    as [y|] eqn:Hfb.
  2:{ rewrite (next_command_empty _ _ (find_one_sorted_None _ _ _ _ _ Hfb))
        in Hb. discriminate. }
  destruct (find_one_sorted_elem _ _ _ _ _ _ Hfb) as [Hy _].
  rewrite Hc1 in Hy.
  destruct (next_command_found _ _ _ ltac:(by rewrite Hc1) Hfb)
    as (l3 & l4 & _ & Hn').
  rewrite Hn' in Hb. injection Hb as _ <-.
  exists x, y. rewrite E. split_and!; try done.
  - apply elem_of_app. right. left.
  - apply elem_of_app in Hy as [Hy|Hy]; apply elem_of_app;
      [by left | right; by right].
  - intros Hid. rewrite E in Hnd. unfold ids in Hnd.
    rewrite map_app in Hnd. cbn [map] in Hnd.
    apply NoDup_app in Hnd as (_ & H2 & H3). apply NoDup_cons in H3 as [H3 _].
    apply elem_of_app in Hy as [Hy|Hy].
    + apply (H2 (doc_id y)); [by apply list_elem_of_fmap_2|].
      rewrite <- Hid. left.
    + apply H3. rewrite Hid. by apply list_elem_of_fmap_2.
Qed.

(** C2 (as amended).  [next_command] finds and then deletes, in two store
    calls with nothing to make the pair atomic.  On a store with unique
    [_id]s, whatever the interleaving of two polls, every document that
    has left the collection was returned to a caller (no silent loss); and
    when the two polls do not interleave, the commands they return are
    different documents (no double delivery). *)
Theorem next_command_race device_a device_b db sched :
  NoDup (ids (coll db "devicecommand")) ->
  (let s := run_race sched (Race db (Polling device_a) (Polling device_b)) in
   forall x, x ∈ coll db "devicecommand" ->
             x ∉ coll (race_db s) "devicecommand" ->
             delivered (race_a s) = Some (with_str_id x) \/
             delivered (race_b s) = Some (with_str_id x)) /\
  (let s := run_race [CallerA; CallerA; CallerB; CallerB]
              (Race db (Polling device_a) (Polling device_b)) in
   forall a b, delivered (race_a s) = Some a -> delivered (race_b s) = Some b ->
     exists x y,
       x ∈ coll db "devicecommand" /\ y ∈ coll db "devicecommand" /\
       doc_id x <> doc_id y /\ a = with_str_id x /\ b = with_str_id y).
Proof.
  intros Hnd. split.
  - assert (Hinv : race_inv db
              (run_race sched (Race db (Polling device_a) (Polling device_b)))).
    { apply run_race_inv; [done|]. by split_and!. }
    destruct Hinv as (_ & _ & Hdel & _). exact Hdel.
  - rewrite run_race_sequential.
    destruct (next_command device_a db) as [db1 ra] eqn:Ha.
    destruct (next_command device_b db1) as [db2 rb] eqn:Hb.
    cbn [race_a race_b delivered]. intros a b -> ->.
    by apply (next_command_twice_distinct device_a device_b db Hnd db1 db2).
Qed.

Lemma next_command_race_witness :
  NoDup (ids (coll db_two_commands "devicecommand")) /\
  (let s := run_race [CallerA; CallerB; CallerA; CallerB]
              (Race db_two_commands (Polling "d1") (Polling "d1")) in
   forall x, x ∈ coll db_two_commands "devicecommand" ->
             x ∉ coll (race_db s) "devicecommand" ->
             delivered (race_a s) = Some (with_str_id x) \/
             delivered (race_b s) = Some (with_str_id x)) /\
  (let s := run_race [CallerA; CallerA; CallerB; CallerB]
              (Race db_two_commands (Polling "d1") (Polling "d1")) in
   forall a b, delivered (race_a s) = Some a -> delivered (race_b s) = Some b ->
     exists x y,
       x ∈ coll db_two_commands "devicecommand" /\
       y ∈ coll db_two_commands "devicecommand" /\
       doc_id x <> doc_id y /\ a = with_str_id x /\ b = with_str_id y).
Proof.
  assert (H : NoDup (ids (coll db_two_commands "devicecommand"))).
  { vm_compute. repeat constructor; rewrite ?elem_of_cons, ?elem_of_nil;
      intuition discriminate. }
  split; [exact H|].
  exact (next_command_race "d1" "d1" db_two_commands
           [CallerA; CallerB; CallerA; CallerB] H).
Defined.

(** C2 as stated fails: when both callers run [find_one] before either
    runs [delete_one], the one queued command is returned to both. *)
Lemma next_command_race_double_delivery :
  let s := run_race [CallerA; CallerB; CallerA; CallerB]
             (Race db_one_command (Polling "d1") (Polling "d1")) in
  delivered (race_a s) = Some (with_str_id (stored_command 0%N cmd_fan3 10)) /\
  delivered (race_b s) = Some (with_str_id (stored_command 0%N cmd_fan3 10)) /\
  coll db_one_command "devicecommand" = [stored_command 0%N cmd_fan3 10].
Proof. vm_compute. by split_and!. Qed.

(** ** The device registry *)

Lemma ingest_reading_device payload now_ts now_hb db :
  coll (fst (ingest_reading payload now_ts now_hb db)) "device"
  = match find "device" (for_device (sr_device_id payload)) db with
    | _ :: _ =>
        coll (update_one "device" (for_device (sr_device_id payload))
                {["last_seen" := VTime now_hb]} false db) "device"
    | [] =>
        coll db "device"
        ++ [Document (next_oid db)
              (Device_dump (Device_new (sr_device_id payload)))]
    end.
Proof.
  unfold ingest_reading. fold (for_device (sr_device_id payload)).
  rewrite create_document_fst, coll_insert_one_ne by done.
  destruct (find "device" _ db); [|done].
  by rewrite create_document_fst, coll_insert_one_eq.
Qed.

Lemma update_first_split q s l l' :
  update_first q s l = Some l' ->
  exists l1 d l2,
    l = l1 ++ d :: l2 /\ l' = l1 ++ apply_set s d :: l2 /\
    matches q d = true /\ Forall (fun x => matches q x = false) l1.
Proof.
  revert l'. induction l as [|x l IH]; cbn [update_first]; intros l' H.
  - discriminate.
  - destruct (matches q x) eqn:E.
    + injection H as <-. by exists [], x, l.
    + destruct (update_first q s l) as [l0|]; [|discriminate].
      injection H as <-. destruct (IH l0 eq_refl) as (l1 & d & l2 & -> & -> & Hm & Hf).
      exists (x :: l1), d, l2. split_and!; try done. by constructor.
Qed.

Lemma update_first_is_Some q s l :
  List.filter (matches q) l <> [] -> is_Some (update_first q s l).
Proof.
  induction l as [|x l IH]; cbn [List.filter update_first]; [done|].
  destruct (matches q x); [by eexists|].
  intros H. destruct (IH H) as [l' ->]. by eexists.
Qed.

(** A reading from a known device: the first record of that device gets
    a new [last_seen]; its other fields, and every other record, stay. *)
Lemma heartbeat_existing payload now_ts now_hb db :
  find "device" (for_device (sr_device_id payload)) db <> [] ->
  exists l1 d l2,
    coll db "device" = l1 ++ d :: l2 /\
    Forall (fun x => matches (for_device (sr_device_id payload)) x = false) l1 /\
    doc_fields d !! "device_id" = Some (VStr (sr_device_id payload)) /\
    coll (fst (ingest_reading payload now_ts now_hb db)) "device"
    = l1 ++ Document (doc_id d)
              (<["last_seen" := VTime now_hb]> (doc_fields d)) :: l2.
Proof.
  intros Hne. rewrite ingest_reading_device.
  destruct (find "device" _ db) as [|y ys] eqn:Hf; [done|].
  unfold update_one.
  destruct (update_first_is_Some (for_device (sr_device_id payload))
              {["last_seen" := VTime now_hb]} (coll db "device"))
    as [l' Hl'].
  { unfold find in Hf. by rewrite Hf. }
  rewrite Hl', coll_set_coll_eq.
  destruct (update_first_split _ _ _ _ Hl') as (l1 & d & l2 & E & -> & Hm & Hl1).
  exists l1, d, l2. split_and!; try done.
  - by apply matches_for_device.
  - unfold apply_set. by rewrite <- insert_union_singleton_l.
Qed.

(** C3 at the failing input: the first reading of an unseen device creates
    its record with the schema defaults, and [last_seen] is among them: it
    is stored as null, not as the instant of the reading. *)
Theorem heartbeat_create_last_seen_null :
  let db' := fst (ingest_reading reading_d1 100 101 empty_db) in
  let dev := Device_dump (Device_new "d1") in
  coll db' "device" = [Document 0%N dev] /\
  dev !! "power" = Some (VBool true) /\
  dev !! "mode" = Some (VStr "auto") /\
  dev !! "fan_speed" = Some (VInt 1) /\
  dev !! "last_seen" = Some VNull.
Proof. vm_compute. by split_and!. Qed.

(** The same on any store and at any instant. *)
Lemma heartbeat_create payload now_ts now_hb db :
  find "device" (for_device (sr_device_id payload)) db = [] ->
  exists d,
    coll (fst (ingest_reading payload now_ts now_hb db)) "device"
    = coll db "device" ++ [d] /\
    doc_fields d !! "device_id" = Some (VStr (sr_device_id payload)) /\
    doc_fields d !! "last_seen" = Some VNull.
Proof.
  intros Hf. rewrite ingest_reading_device, Hf.
  eexists. split_and!; [done | |]; cbn [doc_fields]; by vm_compute.
Qed.

(** ** The threshold resolver *)

Lemma matches_global d :
  has_device_id d -> matches [("device_id", CExists false)] d = false.
Proof.
  intros [v Hv]. unfold matches; cbn [forallb fst snd].
  rewrite to_dict_field by done. by rewrite Hv.
Qed.

Lemma update_first_None q s l :
  Forall (fun d => matches q d = false) l -> update_first q s l = None.
Proof.
  induction 1 as [|x l Hx _ IH]; cbn [update_first]; [done|].
  by rewrite Hx, IH.
Qed.

Lemma Thresholds_dump_device_id th :
  Thresholds_dump th !! "device_id" = Some (opt VStr (th_device_id th)).
Proof. reflexivity. Qed.

(** Once every stored record binds [device_id] -- and every record
    [set_thresholds] writes does, to null when the scope is global -- a
    write with no [device_id] finds nothing to update and inserts. *)
Lemma set_thresholds_global_appends th db :
  truthy (th_device_id th) = None ->
  Forall has_device_id (coll db "thresholds") ->
  coll (set_thresholds th db) "thresholds"
  = coll db "thresholds" ++ [Document (next_oid db) (Thresholds_dump th)].
Proof.
  intros Ht Hall. unfold set_thresholds, scope_of. rewrite Ht.
  unfold update_one. rewrite update_first_None.
  - rewrite coll_insert_one_eq. cbn [query_seed].
    by rewrite (right_id_L ∅ (∪)).
  - eapply Forall_impl; [exact Hall|]. apply matches_global.
Qed.

Lemma set_thresholds_has_device_id th db :
  Forall has_device_id (coll db "thresholds") ->
  Forall has_device_id (coll (set_thresholds th db) "thresholds").
Proof.
  intros Hall. unfold set_thresholds, update_one.
  destruct (update_first _ _ (coll db "thresholds")) as [l'|] eqn:E.
  - rewrite coll_set_coll_eq.
    destruct (update_first_split _ _ _ _ E) as (l1 & d & l2 & E1 & -> & _ & _).
    rewrite E1 in Hall. apply Forall_app in Hall as [H1 H2].
    apply Forall_cons in H2 as [_ H2].
    apply Forall_app. split; [done|]. constructor; [|done].
    unfold has_device_id, apply_set; cbn [doc_fields].
    exists (opt VStr (th_device_id th)).
    apply lookup_union_Some_l, Thresholds_dump_device_id.
  - rewrite coll_insert_one_eq. apply Forall_app. split; [done|].
    constructor; [|done]. unfold has_device_id; cbn [doc_fields].
    exists (opt VStr (th_device_id th)).
    apply lookup_union_Some_l, Thresholds_dump_device_id.
Qed.

Lemma get_thresholds_global_defaults device_id db :
  truthy device_id = None ->
  Forall has_device_id (coll db "thresholds") ->
  get_thresholds device_id db = Thresholds_dump (Thresholds_new device_id).
Proof.
  intros Ht Hall. unfold get_thresholds, scope_of, find_one, find.
  rewrite Ht, filter_none; [done|].
  eapply Forall_impl; [exact Hall|]. apply matches_global.
Qed.

Lemma truthy_None_opt (o : option string) (s : string) :
  truthy o = None -> s <> "" -> opt VStr o <> VStr s.
Proof.
  destruct o as [x|]; cbn [truthy opt]; [|done].
  destruct (String.eqb_spec x ""); [congruence | done].
Qed.

Lemma truthy_Some (o : option string) (s : string) :
  truthy o = Some s -> o = Some s.
Proof.
  destruct o as [x|]; cbn [truthy]; [|done].
  by destruct (String.eqb x ""); intros [= ->].
Qed.

Lemma matches_for_device_false device_id d :
  doc_fields d !! "device_id" <> Some (VStr device_id) ->
  matches (for_device device_id) d = false.
Proof.
  intros H. destruct (matches (for_device device_id) d) eqn:E; [|done].
  by apply matches_for_device in E.
Qed.

Lemma matches_for_device_congr device_id d d' :
  doc_fields d !! "device_id" = doc_fields d' !! "device_id" ->
  matches (for_device device_id) d = matches (for_device device_id) d'.
Proof.
  intros H. unfold matches, for_device; cbn [forallb fst snd].
  rewrite !to_dict_field by done. by rewrite H.
Qed.

(** What the record written by [set_thresholds] binds [device_id] to
    where the write updates the document [d] found by the scope. *)
Lemma set_thresholds_update_device_id th d x :
  x <> "" ->
  matches (scope_of (th_device_id th)) d = true ->
  matches (for_device x) (apply_set (Thresholds_dump th) d)
  = matches (for_device x) d.
Proof.
  intros Hx Hm. unfold scope_of in Hm.
  destruct (truthy (th_device_id th)) as [y|] eqn:Ht.
  - apply truthy_Some in Ht. apply matches_for_device in Hm.
    apply matches_for_device_congr. unfold apply_set; cbn [doc_fields].
    rewrite Hm.
    apply lookup_union_Some_l. by rewrite Thresholds_dump_device_id, Ht.
  - rewrite !matches_for_device_false; [done | |].
    + unfold matches in Hm; cbn [forallb fst snd] in Hm.
      rewrite to_dict_field in Hm by done.
      by destruct (doc_fields d !! "device_id").
    + unfold apply_set; cbn [doc_fields].
      erewrite lookup_union_Some_l by apply Thresholds_dump_device_id.
      intros [= E]. by apply (truthy_None_opt _ x Ht).
Qed.

(** The per-device half of the invariant holds: a write never leaves a
    second record for a non-empty [device_id]. *)
Lemma set_thresholds_per_device_unique th db x :
  x <> "" ->
  (length (find "thresholds" (for_device x) db) <= 1)%nat ->
  (length (find "thresholds" (for_device x) (set_thresholds th db)) <= 1)%nat.
Proof.
  intros Hx Hlen. unfold find in *. unfold set_thresholds, update_one.
  destruct (update_first _ _ (coll db "thresholds")) as [l'|] eqn:E.
  - rewrite coll_set_coll_eq.
    destruct (update_first_split _ _ _ _ E) as (l1 & d & l2 & E1 & -> & Hm & _).
    rewrite E1 in Hlen. rewrite List.filter_app in *.
    cbn [List.filter] in *.
    rewrite (set_thresholds_update_device_id th d x Hx Hm).
    destruct (matches (for_device x) d);
      rewrite length_app in *; cbn [length] in *; lia.
  - rewrite coll_insert_one_eq, List.filter_app. cbn [List.filter].
    destruct (matches (for_device x) _) eqn:Hnew;
      [|rewrite app_nil_r; exact Hlen].
    apply matches_for_device in Hnew. cbn [doc_fields] in Hnew.
    erewrite lookup_union_Some_l in Hnew by apply Thresholds_dump_device_id.
    injection Hnew as Hnew.
    destruct (truthy (th_device_id th)) as [y|] eqn:Ht.
    + apply truthy_Some in Ht. rewrite Ht in Hnew. cbn [opt] in Hnew.
      injection Hnew as ->.
      assert (Hnone : List.filter (matches (for_device x))
                        (coll db "thresholds") = []).
      { destruct (List.filter _ (coll db "thresholds")) as [|z zs] eqn:Hz;
          [done|]. exfalso.
        assert (Hin : In z (List.filter (matches (for_device x))
                              (coll db "thresholds")))
          by (rewrite Hz; by left).
        apply filter_In in Hin as [Hin Hzm].
        assert (is_Some (update_first (scope_of (th_device_id th))
                           (Thresholds_dump th) (coll db "thresholds")))
          as [? Hs]; [|congruence].
        apply update_first_is_Some. unfold scope_of.
        rewrite Ht; cbn [truthy].
        apply String.eqb_neq in Hx. rewrite Hx. fold (for_device x).
        intros Hnil.
        assert (In z (List.filter (matches (for_device x))
                        (coll db "thresholds")))
          by (apply filter_In; by split).
        by rewrite Hnil in H. }
      rewrite Hnone. cbn [app length]. lia.
    + exfalso. by apply (truthy_None_opt _ x Ht).
Qed.

(** A global write does not touch what a per-device read answers. *)
Lemma get_thresholds_per_device_frame th db x :
  x <> "" ->
  truthy (th_device_id th) = None ->
  Forall has_device_id (coll db "thresholds") ->
  get_thresholds (Some x) (set_thresholds th db) = get_thresholds (Some x) db.
Proof.
  intros Hx Ht Hall. unfold get_thresholds, find_one, find.
  rewrite (set_thresholds_global_appends th db Ht Hall).
  rewrite List.filter_app. cbn [List.filter].
  assert (matches (scope_of (Some x))
            (Document (next_oid db) (Thresholds_dump th)) = false) as ->.
  { unfold scope_of; cbn [truthy].
    rewrite (proj2 (String.eqb_neq x "") Hx).
    apply matches_for_device_false. cbn [doc_fields].
    rewrite Thresholds_dump_device_id. intros [= E].
    by apply (truthy_None_opt _ x Ht). }
  by rewrite app_nil_r.
Qed.

(** C4 at the failing input: two writes with no [device_id] on an empty
    store leave two global records.  The first write stores [device_id]
    as null; the scope filter of the second asks for a record in which
    [device_id] does not exist, finds none, and inserts. *)
Theorem set_thresholds_global_twice :
  let db2 := set_thresholds th_custom (set_thresholds th_default empty_db) in
  coll db2 "thresholds"
    = [Document 0%N (Thresholds_dump th_default);
       Document 1%N (Thresholds_dump th_custom)] /\
  Thresholds_dump th_default !! "device_id" = Some VNull /\
  Thresholds_dump th_custom !! "device_id" = Some VNull.
Proof. vm_compute. by split_and!. Qed.

(** C5 at the failing input: after a global write that sets [pm2_5_good]
    to 20, the read with no [device_id] does not find the record and
    answers the schema defaults, with [pm2_5_good] at 12. *)
Theorem get_thresholds_global_after_set :
  let db1 := set_thresholds th_custom empty_db in
  coll db1 "thresholds" = [Document 0%N (Thresholds_dump th_custom)] /\
  Thresholds_dump th_custom !! "pm2_5_good" = Some (VNum 20) /\
  get_thresholds None db1 = Thresholds_dump (Thresholds_new None) /\
  get_thresholds None db1 !! "pm2_5_good" = Some (VNum 12).
Proof. vm_compute. by split_and!. Qed.

(** C6. A read for a non-empty [device_id] looks at the records of that
    device only: if there is one, the (first) such record is returned,
    with [_id] as a string; if there is none, the schema defaults are
    returned under that [device_id].  Either way the answer carries the
    [device_id] asked for, so it is never a global record. *)
Theorem get_thresholds_per_device (device_id : string) db :
  device_id <> "" ->
  match find "thresholds" (for_device device_id) db with
  | d :: _ =>
      doc_fields d !! "device_id" = Some (VStr device_id) /\
      get_thresholds (Some device_id) db = with_str_id d
  | [] =>
      get_thresholds (Some device_id) db
      = Thresholds_dump (Thresholds_new (Some device_id))
  end /\
  get_thresholds (Some device_id) db !! "device_id" = Some (VStr device_id).
Proof.
  intros Hne. unfold get_thresholds, scope_of, truthy, find_one.
  apply String.eqb_neq in Hne. rewrite Hne. fold (for_device device_id).
  destruct (find "thresholds" (for_device device_id) db) as [|d l] eqn:E;
    cbn [head].
  - by split.
  - assert (Hd : doc_fields d !! "device_id" = Some (VStr device_id)).
    { apply matches_for_device.
      assert (Hin : In d (find "thresholds" (for_device device_id) db))
        by (rewrite E; left; done).
      unfold find in Hin. by apply filter_In in Hin as [_ Hm]. }
    split_and!; try done.
    unfold with_str_id. rewrite lookup_insert_ne by done.
    by rewrite to_dict_field.
Qed.

Lemma get_thresholds_per_device_witness :
  "d1" <> "" /\
  match find "thresholds" (for_device "d1")
          (set_thresholds th_custom empty_db) with
  | d :: _ =>
      doc_fields d !! "device_id" = Some (VStr "d1") /\
      get_thresholds (Some "d1") (set_thresholds th_custom empty_db)
      = with_str_id d
  | [] =>
      get_thresholds (Some "d1") (set_thresholds th_custom empty_db)
      = Thresholds_dump (Thresholds_new (Some "d1"))
  end /\
  get_thresholds (Some "d1") (set_thresholds th_custom empty_db)
    !! "device_id" = Some (VStr "d1").
Proof.
  assert (H : "d1" <> "") by discriminate.
  split; [exact H|].
  exact (get_thresholds_per_device "d1" (set_thresholds th_custom empty_db) H).
Defined.

Lemma filter_true {A} (l : list A) : List.filter (fun _ => true) l = l.
Proof. induction l as [|x l IH]; simpl; [done|]. by rewrite IH. Qed.

Lemma find_all name db : find name [] db = coll db name.
Proof. unfold find, matches. cbn [forallb]. apply filter_true. Qed.

(** C9. An empty [device_id] query parameter counts as none.  The latest
    readings for [device_id=""] are those for no [device_id], taken from
    the whole collection with no device filter; and the thresholds for
    [device_id=""] are looked up in the global scope, by the filter that
    no [device_id] gives. *)
Theorem empty_device_id_as_none isoformat limit db :
  get_latest_readings isoformat (Some "") limit db
    = get_latest_readings isoformat None limit db /\
  get_latest_readings isoformat (Some "") limit db
    = map (render_reading isoformat)
        (limit_docs limit (sort_docs "timestamp" Desc (coll db "sensorreading"))) /\
  scope_of (Some "") = [("device_id", CExists false)] /\
  scope_of (Some "") = scope_of None /\
  get_thresholds (Some "") db
    = match find_one "thresholds" [("device_id", CExists false)] db with
      | Some doc => with_str_id doc
      | None => Thresholds_dump (Thresholds_new (Some ""))
      end.
Proof.
  split_and!; try reflexivity.
  unfold get_latest_readings; cbn [truthy String.eqb]. by rewrite find_all.
Qed.

(** ** The command schema *)

(** C8 as stated fails: a command whose [device_id] is the empty string
    passes validation and is stored. *)
Lemma post_commands_empty_device_id :
  post_commands cmd_no_device 10 empty_db
    = Ok (push_command cmd_no_device 10 empty_db) /\
  coll (fst (push_command cmd_no_device 10 empty_db)) "devicecommand"
    = [stored_command 0%N cmd_no_device 10] /\
  doc_fields (stored_command 0%N cmd_no_device 10) !! "device_id"
    = Some (VStr "").
Proof. vm_compute. by split_and!. Qed.

(** C8 (as amended).  Enqueue asks for a [device_id] but not for a
    non-empty one: validation looks at [fan_speed] only (and at the type
    of [mode]), so a command is accepted or rejected whatever its
    [device_id], the empty string included.  An accepted command is
    appended to [devicecommand] under a fresh [_id] with its [device_id],
    its [created_at] and exactly those optional fields that were given: a
    field that was not given has no key in the stored document. *)
Theorem post_commands_stores cmd now db :
  DeviceCommand_valid cmd = true ->
  DeviceCommand_valid
    {| dc_device_id := ""; dc_power := dc_power cmd; dc_mode := dc_mode cmd;
       dc_fan_speed := dc_fan_speed cmd |} = true /\
  post_commands cmd now db = Ok (push_command cmd now db) /\
  snd (push_command cmd now db) = str_oid (next_oid db) /\
  coll (fst (push_command cmd now db)) "devicecommand"
    = coll db "devicecommand" ++ [stored_command (next_oid db) cmd now] /\
  let f := doc_fields (stored_command (next_oid db) cmd now) in
  f !! "device_id" = Some (VStr (dc_device_id cmd)) /\
  f !! "created_at" = Some (VTime now) /\
  f !! "power" = option_map VBool (dc_power cmd) /\
  f !! "mode" = option_map Mode_value (dc_mode cmd) /\
  f !! "fan_speed" = option_map VInt (dc_fan_speed cmd).
Proof.
  intros Hv. cbv zeta. split_and!.
  - exact Hv.
  - unfold post_commands, validated. by rewrite Hv.
  - reflexivity.
  - apply push_command_coll.
  - apply stored_command_device.
  - unfold stored_command; cbn [doc_fields]. by rewrite lookup_insert_eq.
  - destruct cmd as [i [p|] [m|] [n|]]; reflexivity.
  - destruct cmd as [i [p|] [m|] [n|]]; reflexivity.
  - destruct cmd as [i [p|] [m|] [n|]]; reflexivity.
Qed.

Lemma post_commands_stores_witness :
  DeviceCommand_valid cmd_no_device = true /\
  post_commands cmd_no_device 10 empty_db
    = Ok (push_command cmd_no_device 10 empty_db) /\
  doc_fields (stored_command 0%N cmd_no_device 10) !! "power" = None /\
  doc_fields (stored_command 0%N cmd_no_device 10) !! "fan_speed"
    = Some (VInt 3).
Proof.
  assert (H : DeviceCommand_valid cmd_no_device = true) by reflexivity.
  destruct (post_commands_stores cmd_no_device 10 empty_db H)
    as (_ & H1 & _ & _ & _ & _ & H2 & _ & H3).
  split_and!; [exact H | exact H1 | exact H2 | exact H3].
Defined.

(** ** Ingestion: the derived AQI *)

Lemma or0_eq (q : Q) : or0 (Some q) == q.
Proof.
  unfold or0. destruct (Qeq_bool q 0) eqn:E; [|reflexivity].
  apply Qeq_bool_iff in E. by rewrite E.
Qed.

Lemma py_max_Qmax a b : py_max a b == Qmax a b.
Proof.
  unfold py_max. destruct (Qle_bool b a) eqn:E.
  - apply Qle_bool_iff in E. by rewrite Q.max_l.
  - assert (a <= b)%Q.
    { destruct (Qlt_le_dec a b) as [H|H]; [by apply Qlt_le_weak|].
      apply Qle_bool_iff in H. congruence. }
    by rewrite Q.max_r.
Qed.

Lemma py_min_Qmin a b : py_min a b == Qmin a b.
Proof.
  unfold py_min. destruct (Qle_bool a b) eqn:E.
  - apply Qle_bool_iff in E. by rewrite Q.min_l.
  - assert (b <= a)%Q.
    { destruct (Qlt_le_dec b a) as [H|H]; [by apply Qlt_le_weak|].
      apply Qle_bool_iff in H. congruence. }
    by rewrite Q.min_r.
Qed.

(** Clamping each term and then taking the larger is clamping the larger. *)
Lemma clamp_max (x y : Q) :
  Qmax (Qmin (Qmax x 0) 500) (Qmin (Qmax y 0) 500)
  == Qmin (Qmax (Qmax x y) 0) 500.
Proof.
  destruct (Q.max_spec x y) as [[H1 E1]|[H1 E1]]; rewrite E1.
  - rewrite Q.max_r; [reflexivity|].
    apply Q.min_le_compat_r, Q.max_le_compat_r. by apply Qlt_le_weak.
  - rewrite Q.max_l; [reflexivity|].
    by apply Q.min_le_compat_r, Q.max_le_compat_r.
Qed.

Lemma spec_aqi_bounds a b : (0 <= spec_aqi a b)%Q /\ (spec_aqi a b <= 500)%Q.
Proof.
  unfold spec_aqi. split.
  - apply Q.min_glb; [apply Q.le_max_r | done].
  - apply Q.le_min_r.
Qed.

Lemma py_int_floor q : (0 <= q)%Q -> py_int q = Qfloor q.
Proof.
  destruct q as [n d]. unfold Qle, py_int, Qfloor; simpl. intros H.
  apply Z.quot_div_nonneg; lia.
Qed.

Lemma compute_aqi_floor a b :
  compute_aqi (Some a) (Some b) = Some (Qfloor (spec_aqi a b)).
Proof.
  unfold compute_aqi. f_equal.
  set (code := py_max _ _).
  assert (E : code == spec_aqi a b).
  { unfold code, spec_aqi. rewrite py_max_Qmax, !py_min_Qmin, !py_max_Qmax.
    rewrite !or0_eq. apply clamp_max. }
  rewrite py_int_floor.
  - by rewrite E.
  - rewrite E. apply spec_aqi_bounds.
Qed.

Lemma ingest_reading_stored payload now_ts now_hb db :
  exists i,
    stored_reading payload now_ts now_hb db
    = Some (Document i
              (<["aqi" := opt VInt
                   match sr_aqi payload with
                   | Some a => Some a
                   | None => compute_aqi (Some (sr_pm2_5 payload))
                               (Some (sr_pm10 payload))
                   end]>
                 (<["timestamp" := VTime
                      match sr_timestamp payload with
                      | Some t => t
                      | None => now_ts
                      end]> (SensorReading_dump payload)))).
Proof.
  unfold stored_reading, ingest_reading.
  rewrite create_document_fst, coll_insert_one_eq, last_snoc. by eexists.
Qed.

(** C7 as stated fails: for [pm2_5 = 0.5] and [pm10 = 0] the formula gives
    2.5 and the stored [aqi] is the integer 2. *)
Lemma ingest_reading_aqi_truncated :
  (exists d, stored_reading reading_half 100 101 empty_db = Some d /\
             doc_fields d !! "aqi" = Some (VInt 2)) /\
  spec_aqi (1 # 2) 0 == 5 # 2 /\
  ~ inject_Z 2 == spec_aqi (1 # 2) 0.
Proof.
  split_and!.
  - eexists. split; [by vm_compute | by vm_compute].
  - by vm_compute.
  - by vm_compute.
Qed.

(** * Further properties *)

(** ** [compute_aqi] *)




(** ** Unique identifiers *)

Lemma wf_coll_insert_one name name' f db :
  wf_coll db name' -> wf_coll (fst (insert_one name f db)) name'.
Proof.
  intros [Hnd Hlt]. unfold wf_coll.
  assert (Hlt' : Forall (fun d => (doc_id d < N.succ (next_oid db))%N)
                   (coll db name')).
  { eapply Forall_impl; [exact Hlt|]. simpl. intros; lia. }
  destruct (decide (name = name')) as [->|Hne].
  - rewrite coll_insert_one_eq. cbn [insert_one fst next_oid]. split.
    + unfold ids. rewrite map_app. cbn [map doc_id].
      apply NoDup_app. split_and!; [done | | apply NoDup_singleton].
      intros i Hi Hi'. apply list_elem_of_singleton in Hi'. subst i.
      apply list_elem_of_fmap in Hi as (d & E & Hd).
      rewrite Forall_forall in Hlt. specialize (Hlt d Hd). simpl in Hlt. lia.
    + apply Forall_app. split; [done|]. constructor; [|done]. simpl. lia.
  - rewrite coll_insert_one_ne by done. by split.
Qed.

Lemma update_first_ids q s l l' :
  update_first q s l = Some l' -> ids l' = ids l.
Proof.
  intros H. destruct (update_first_split _ _ _ _ H)
    as (l1 & d & l2 & -> & -> & _ & _).
  unfold ids. by rewrite !map_app.
Qed.

Lemma Forall_ids (P : oid -> Prop) (l : list document) :
  Forall (fun d => P (doc_id d)) l <-> Forall P (ids l).
Proof. unfold ids. by rewrite Forall_fmap. Qed.

Lemma delete_first_keeps q (P : document -> Prop) l :
  NoDup (ids l) -> Forall P l ->
  NoDup (ids (delete_first q l)) /\ Forall P (delete_first q l).
Proof.
  induction l as [|d l IH]; cbn [delete_first ids map]; intros Hnd Hall.
  - by split.
  - apply NoDup_cons in Hnd as [Hd Hnd]. apply Forall_cons in Hall as [Hp Hall].
    destruct (matches q d); [by split|].
    destruct (IH Hnd Hall) as [IH1 IH2]. split; [|by constructor].
    cbn [ids map]. apply NoDup_cons. split; [|done].
    intros Hin. apply Hd. apply list_elem_of_fmap in Hin as (x & -> & Hx).
    apply list_elem_of_fmap_2. by apply delete_first_sub in Hx.
Qed.

Lemma wf_db_insert_one name f db :
  wf_db db -> wf_db (fst (insert_one name f db)).
Proof. intros H name'. apply wf_coll_insert_one, H. Qed.

Lemma wf_db_set_coll name l db :
  wf_db db -> NoDup (ids l) ->
  Forall (fun d => (doc_id d < next_oid db)%N) l ->
  wf_db (set_coll name l db).
Proof.
  intros H Hnd Hlt name'. unfold wf_coll.
  destruct (decide (name = name')) as [->|Hne].
  - rewrite coll_set_coll_eq. by split.
  - rewrite coll_set_coll_ne by done. apply H.
Qed.

Lemma wf_db_update_one name q s upsert db :
  wf_db db -> wf_db (update_one name q s upsert db).
Proof.
  intros H. unfold update_one.
  destruct (update_first q s (coll db name)) as [l'|] eqn:E.
  - destruct (H name) as [Hnd Hlt]. apply update_first_ids in E.
    apply wf_db_set_coll; [done | by rewrite E |].
    apply (Forall_ids (fun i => (i < next_oid db)%N)). rewrite E.
    by apply (Forall_ids (fun i => (i < next_oid db)%N)).
  - destruct upsert; [by apply wf_db_insert_one | done].
Qed.

Lemma wf_db_delete_one name q db :
  wf_db db -> wf_db (delete_one name q db).
Proof.
  intros H. destruct (H name) as [Hnd Hlt].
  destruct (delete_first_keeps q _ _ Hnd Hlt) as [H1 H2].
  by apply wf_db_set_coll.
Qed.

Lemma wf_db_empty : wf_db empty_db.
Proof. intros name. split; constructor. Qed.

(** X4. Every handler that writes keeps the store well formed: in each
    collection the [_id]s stay pairwise distinct and below the next
    identifier to be issued.  (The empty store is well formed, so every
    store the handlers can reach is.) *)
Theorem handlers_keep_wf_db db payload now_ts now_hb th cmd now device_id :
  wf_db db ->
  wf_db (fst (ingest_reading payload now_ts now_hb db)) /\
  wf_db (set_thresholds th db) /\
  wf_db (fst (push_command cmd now db)) /\
  wf_db (fst (next_command device_id db)).
Proof.
  intros H. split_and!.
  - unfold ingest_reading. rewrite create_document_fst.
    apply wf_db_insert_one.
    destruct (find "device" _ db).
    + rewrite create_document_fst. by apply wf_db_insert_one.
    + by apply wf_db_update_one.
  - by apply wf_db_update_one.
  - unfold push_command. rewrite create_document_fst.
    by apply wf_db_insert_one.
  - unfold next_command. destruct (find_one_sorted _ _ _ _ db); [|done].
    by apply wf_db_delete_one.
Qed.

Lemma handlers_keep_wf_db_witness :
  wf_db empty_db /\
  wf_db (fst (ingest_reading reading_d1 100 101 empty_db)) /\
  wf_db (set_thresholds th_custom empty_db) /\
  wf_db (fst (push_command cmd_fan3 10 empty_db)) /\
  wf_db (fst (next_command "d1" empty_db)).
Proof.
  split; [exact wf_db_empty|].
  exact (handlers_keep_wf_db empty_db reading_d1 100 101 th_custom cmd_fan3
           10 "d1" wf_db_empty).
Defined.

(** ** Ingestion *)

Lemma coll_update_one_ne name name' q s upsert db :
  name <> name' -> coll (update_one name q s upsert db) name' = coll db name'.
Proof.
  intros Hne. unfold update_one.
  destruct (update_first q s (coll db name)).
  - by rewrite coll_set_coll_ne.
  - destruct upsert; [by rewrite coll_insert_one_ne | done].
Qed.

Lemma next_oid_update_one name q s upsert db :
  (next_oid db <= next_oid (update_one name q s upsert db))%N.
Proof.
  unfold update_one. destruct (update_first q s (coll db name)); [done|].
  destruct upsert; simpl; lia.
Qed.

(** X5. One ingestion appends exactly one document to [sensorreading],
    behind the readings already there, and answers the string of its
    [_id].  The document carries the payload; its [timestamp] is the
    payload's if there is one and the instant read from the clock if not;
    an [aqi] that came with the payload is stored as it is.  No
    collection other than [device] and [sensorreading] changes. *)
Theorem ingest_reading_appends payload now_ts now_hb db :
  exists i fields,
    snd (ingest_reading payload now_ts now_hb db) = str_oid i /\
    (next_oid db <= i)%N /\
    coll (fst (ingest_reading payload now_ts now_hb db)) "sensorreading"
      = coll db "sensorreading" ++ [Document i fields] /\
    fields !! "timestamp"
      = Some (VTime match sr_timestamp payload with
                    | Some t => t
                    | None => now_ts
                    end) /\
    (forall a, sr_aqi payload = Some a -> fields !! "aqi" = Some (VInt a)) /\
    (forall k, k <> "aqi" -> k <> "timestamp" ->
               fields !! k = SensorReading_dump payload !! k) /\
    (forall name, name <> "device" -> name <> "sensorreading" ->
       coll (fst (ingest_reading payload now_ts now_hb db)) name
       = coll db name).
Proof.
  unfold ingest_reading.
  set (data := <["aqi" := _]> _).
  set (db1 := match find "device" _ db with [] => _ | _ :: _ => _ end).
  assert (Hother : forall name, name <> "device" -> coll db1 name = coll db name).
  { intros name Hne. unfold db1. destruct (find "device" _ db).
    - rewrite create_document_fst. by rewrite coll_insert_one_ne.
    - by rewrite coll_update_one_ne. }
  assert (Hoid : (next_oid db <= next_oid db1)%N).
  { unfold db1. destruct (find "device" _ db).
    - simpl. lia.
    - apply next_oid_update_one. }
  exists (next_oid db1), data. split_and!.
  - reflexivity.
  - exact Hoid.
  - rewrite create_document_fst, coll_insert_one_eq. by rewrite Hother.
  - unfold data. rewrite lookup_insert_ne by done. by rewrite lookup_insert_eq.
  - intros a Ha. unfold data. by rewrite lookup_insert_eq, Ha.
  - intros k Hk1 Hk2. unfold data. by rewrite !lookup_insert_ne.
  - intros name Hn1 Hn2. rewrite create_document_fst.
    rewrite coll_insert_one_ne by done. by apply Hother.
Qed.

Lemma andb_true_split a b : a && b = true -> a = true /\ b = true.
Proof. by destruct a, b. Qed.

(** X6. Whatever passes validation is stored with an [aqi] from 0 to
    500, be it the one the payload brought or the one derived from the
    concentrations. *)
Theorem post_readings_aqi_range payload now_ts now_hb db :
  SensorReading_valid payload = true ->
  post_readings payload now_ts now_hb db
    = Ok (ingest_reading payload now_ts now_hb db) /\
  exists d aqi,
    stored_reading payload now_ts now_hb db = Some d /\
    doc_fields d !! "aqi" = Some (VInt aqi) /\
    0 <= aqi <= 500.
Proof.
  intros Hv. split.
  { unfold post_readings, validated. by rewrite Hv. }
  destruct (ingest_reading_stored payload now_ts now_hb db) as [i ->].
  unfold SensorReading_valid in Hv.
  apply andb_true_split in Hv as [_ Haqi].
  destruct (sr_aqi payload) as [a|] eqn:E.
  - eexists _, a. split; [done|]. split.
    + cbn [doc_fields]. by rewrite lookup_insert_eq.
    + apply andb_true_split in Haqi as [H1 H2]. lia.
  - eexists _, _. split; [done|]. split.
    + cbn [doc_fields]. by rewrite lookup_insert_eq, compute_aqi_floor.
    + destruct (spec_aqi_bounds (sr_pm2_5 payload) (sr_pm10 payload))
        as [H0 H500].
      apply Qfloor_resp_le in H0, H500. change (Qfloor 0) with 0 in H0.
      change (Qfloor 500) with 500 in H500. lia.
Qed.

Lemma post_readings_aqi_range_witness :
  SensorReading_valid reading_half = true /\
  exists d aqi,
    stored_reading reading_half 100 101 empty_db = Some d /\
    doc_fields d !! "aqi" = Some (VInt aqi) /\
    0 <= aqi <= 500.
Proof.
  assert (H : SensorReading_valid reading_half = true) by reflexivity.
  split; [exact H|].
  exact (proj2 (post_readings_aqi_range reading_half 100 101 empty_db H)).
Defined.

(** ** The device registry, continued *)

(** X7. A reading from a device that is on record touches one device
    record, the first of that device: it keeps its [_id] and every field
    but [last_seen], which becomes the instant of the heartbeat.  The
    records before and after it are as they were, and none is added. *)
Theorem heartbeat_only_last_seen payload now_ts now_hb db :
  find "device" (for_device (sr_device_id payload)) db <> [] ->
  exists l1 d d' l2,
    coll db "device" = l1 ++ d :: l2 /\
    Forall (fun x => matches (for_device (sr_device_id payload)) x = false) l1 /\
    doc_fields d !! "device_id" = Some (VStr (sr_device_id payload)) /\
    coll (fst (ingest_reading payload now_ts now_hb db)) "device"
      = l1 ++ d' :: l2 /\
    doc_id d' = doc_id d /\
    doc_fields d' !! "last_seen" = Some (VTime now_hb) /\
    (forall k, k <> "last_seen" -> doc_fields d' !! k = doc_fields d !! k).
Proof.
  intros Hne.
  destruct (heartbeat_existing payload now_ts now_hb db Hne)
    as (l1 & d & l2 & E & Hl1 & Hd & E').
  exists l1, d, (Document (doc_id d)
                   (<["last_seen" := VTime now_hb]> (doc_fields d))), l2.
  split_and!; try done.
  - cbn [doc_fields]. by rewrite lookup_insert_eq.
  - intros k Hk. cbn [doc_fields]. by rewrite lookup_insert_ne.
Qed.

Lemma heartbeat_only_last_seen_witness :
  let db := fst (ingest_reading reading_d1 100 101 empty_db) in
  find "device" (for_device (sr_device_id reading_half)) db <> [] /\
  exists l1 d d' l2,
    coll db "device" = l1 ++ d :: l2 /\
    Forall (fun x => matches (for_device (sr_device_id reading_half)) x = false)
      l1 /\
    doc_fields d !! "device_id" = Some (VStr (sr_device_id reading_half)) /\
    coll (fst (ingest_reading reading_half 200 201 db)) "device"
      = l1 ++ d' :: l2 /\
    doc_id d' = doc_id d /\
    doc_fields d' !! "last_seen" = Some (VTime 201) /\
    (forall k, k <> "last_seen" -> doc_fields d' !! k = doc_fields d !! k).
Proof.
  intros db.
  assert (H : find "device" (for_device (sr_device_id reading_half)) db <> [])
    by (vm_compute; discriminate).
  split; [exact H|].
  exact (heartbeat_only_last_seen reading_half 200 201 db H).
Defined.

Lemma length_filter_app_one {A} (f : A -> bool) l x :
  length (List.filter f (l ++ [x]))
  = (length (List.filter f l) + if f x then 1 else 0)%nat.
Proof.
  rewrite List.filter_app, length_app. cbn [List.filter].
  by destruct (f x).
Qed.

Lemma length_filter_middle {A} (f : A -> bool) l1 x y l2 :
  f x = f y ->
  length (List.filter f (l1 ++ x :: l2)) = length (List.filter f (l1 ++ y :: l2)).
Proof.
  intros E. rewrite !List.filter_app, !length_app. cbn [List.filter].
  rewrite E. by destruct (f y).
Qed.

(** X8. Run on its own, with no other request between its store calls,
    an ingestion never gives a device a second record.  The number of
    records of the reading's device goes from 0 to 1 or stays what it
    was; the number of records of any other device stays what it was.
    (The lookup and the insert are two store calls: what two first
    readings of one device do when they interleave is not covered.) *)
Theorem ingest_reading_device_count payload now_ts now_hb db device_id :
  length (find "device" (for_device device_id)
            (fst (ingest_reading payload now_ts now_hb db)))
  = if String.eqb device_id (sr_device_id payload)
    then Nat.max 1 (length (find "device" (for_device device_id) db))
    else length (find "device" (for_device device_id) db).
Proof.
  destruct (find "device" (for_device (sr_device_id payload)) db)
    as [|y ys] eqn:Hf.
  - unfold find at 1. rewrite ingest_reading_device, Hf.
    rewrite length_filter_app_one. fold (find "device" (for_device device_id) db).
    destruct (String.eqb_spec device_id (sr_device_id payload)) as [->|Hne].
    + rewrite Hf. cbn [length Nat.add Nat.max].
      assert (matches (for_device (sr_device_id payload))
                (Document (next_oid db)
                   (Device_dump (Device_new (sr_device_id payload)))) = true)
        as -> by (by apply matches_for_device).
      done.
    + rewrite matches_for_device_false; [lia|].
      cbn [doc_fields]. intros [= E]. by apply Hne.
  - destruct (heartbeat_existing payload now_ts now_hb db) as
      (l1 & d & l2 & E & _ & Hd & E'); [by rewrite Hf|].
    unfold find at 1. rewrite E'.
    rewrite (length_filter_middle _ l1 _ d l2).
    2:{ apply matches_for_device_congr. cbn [doc_fields].
        by rewrite lookup_insert_ne. }
    rewrite <- E. fold (find "device" (for_device device_id) db).
    destruct (String.eqb_spec device_id (sr_device_id payload)) as [->|Hne];
      [|done].
    rewrite Hf. cbn [length]. lia.
Qed.

(** ** The threshold resolver, continued *)

Lemma update_first_None_filter q s l :
  update_first q s l = None -> List.filter (matches q) l = [].
Proof.
  induction l as [|d l IH]; cbn [update_first List.filter]; [done|].
  destruct (matches q d); [discriminate|].
  destruct (update_first q s l); [discriminate|]. auto.
Qed.

Lemma update_first_app q s l1 d l2 :
  Forall (fun x => matches q x = false) l1 -> matches q d = true ->
  update_first q s (l1 ++ d :: l2) = Some (l1 ++ apply_set s d :: l2).
Proof.
  intros Hl1 Hd. induction Hl1 as [|x l1 Hx _ IH]; cbn [app update_first].
  - by rewrite Hd.
  - by rewrite Hx, IH.
Qed.

Lemma Thresholds_dump_no_id th : Thresholds_dump th !! "_id" = None.
Proof. reflexivity. Qed.

Lemma set_coll_same name db l :
  collections db !! name = Some l -> set_coll name l db = db.
Proof.
  intros H. destruct db as [cols n]. unfold set_coll; cbn in *.
  f_equal. by apply insert_id.
Qed.

Lemma apply_set_twice s d : apply_set s (apply_set s d) = apply_set s d.
Proof.
  unfold apply_set; cbn [doc_id doc_fields]. f_equal.
  by rewrite (assoc_L (∪)), (idemp_L (∪)).
Qed.

(** The record a per-device write leaves behind, wherever it lies. *)
Lemma set_thresholds_per_device_result th db x :
  truthy (th_device_id th) = Some x ->
  exists l1 d' l2,
    collections (set_thresholds th db) !! "thresholds"
      = Some (l1 ++ d' :: l2) /\
    Forall (fun d => matches (for_device x) d = false) l1 /\
    matches (for_device x) d' = true /\
    apply_set (Thresholds_dump th) d' = d' /\
    (forall k v, Thresholds_dump th !! k = Some v ->
                 doc_fields d' !! k = Some v).
Proof.
  intros Ht. pose proof (truthy_Some _ _ Ht) as Hid.
  unfold set_thresholds, scope_of. rewrite Ht. fold (for_device x).
  unfold update_one.
  destruct (update_first _ _ (coll db "thresholds")) as [l'|] eqn:E.
  - destruct (update_first_split _ _ _ _ E) as (l1 & d & l2 & E1 & -> & Hm & Hl1).
    exists l1, (apply_set (Thresholds_dump th) d), l2.
    split_and!.
    + unfold set_coll; cbn. by rewrite lookup_insert_eq.
    + exact Hl1.
    + apply matches_for_device. cbn [apply_set doc_fields].
      apply lookup_union_Some_l. by rewrite Thresholds_dump_device_id, Hid.
    + apply apply_set_twice.
    + intros k v Hk. cbn [apply_set doc_fields]. by apply lookup_union_Some_l.
  - apply update_first_None_filter in E.
    exists (coll db "thresholds"),
      (Document (next_oid db)
         (Thresholds_dump th ∪ query_seed (for_device x))), [].
    split_and!.
    + unfold insert_one; cbn. by rewrite lookup_insert_eq.
    + clear -E. induction (coll db "thresholds") as [|d l IH];
        cbn [List.filter] in *; [done|].
      destruct (matches (for_device x) d) eqn:Hd; [done|]. auto.
    + apply matches_for_device. cbn [doc_fields].
      apply lookup_union_Some_l. by rewrite Thresholds_dump_device_id, Hid.
    + exact (apply_set_twice (Thresholds_dump th)
               (Document (next_oid db) (query_seed (for_device x)))).
    + intros k v Hk. cbn [doc_fields]. by apply lookup_union_Some_l.
Qed.

(** X9. Write then read, per device: after a write for a non-empty
    [device_id], the read for that [device_id] answers every field of the
    schema with the value just written, whatever was stored before. *)
Theorem thresholds_round_trip th db x :
  truthy (th_device_id th) = Some x ->
  forall k v,
    Thresholds_dump th !! k = Some v ->
    get_thresholds (Some x) (set_thresholds th db) !! k = Some v.
Proof.
  intros Ht k v Hk.
  destruct (set_thresholds_per_device_result th db x Ht)
    as (l1 & d' & l2 & Hc & Hl1 & Hm & _ & Hf).
  assert (Hx : truthy (Some x) = Some x).
  { pose proof (truthy_Some _ _ Ht) as Hid. by rewrite Hid in Ht. }
  unfold get_thresholds, scope_of. rewrite Hx. fold (for_device x).
  assert (Hcoll : coll (set_thresholds th db) "thresholds" = l1 ++ d' :: l2)
    by (unfold coll; by rewrite Hc).
  unfold find_one, find. rewrite Hcoll.
  rewrite List.filter_app, (filter_none _ _ Hl1). cbn [app List.filter].
  rewrite Hm. cbn [head].
  assert (k <> "_id") as Hne.
  { intros ->. by rewrite Thresholds_dump_no_id in Hk. }
  unfold with_str_id. rewrite lookup_insert_ne by done.
  rewrite to_dict_field by done. by apply Hf.
Qed.

Lemma thresholds_round_trip_witness :
  truthy (th_device_id th_d1) = Some "d1" /\
  get_thresholds (Some "d1")
    (set_thresholds th_d1 (set_thresholds th_custom empty_db))
    !! "pm2_5_good" = Some (VNum 15).
Proof.
  assert (H : truthy (th_device_id th_d1) = Some "d1") by reflexivity.
  split; [exact H|].
  exact (thresholds_round_trip th_d1 (set_thresholds th_custom empty_db)
           "d1" H "pm2_5_good" (VNum 15) eq_refl).
Defined.

(** X10. A per-device write is idempotent: writing the same thresholds for
    a non-empty [device_id] a second time leaves the store exactly as the
    first write left it. *)
Theorem set_thresholds_idempotent th db :
  truthy (th_device_id th) <> None ->
  set_thresholds th (set_thresholds th db) = set_thresholds th db.
Proof.
  intros Hne. destruct (truthy (th_device_id th)) as [x|] eqn:Ht; [|done].
  destruct (set_thresholds_per_device_result th db x Ht)
    as (l1 & d' & l2 & Hc & Hl1 & Hm & Hid & _).
  set (db1 := set_thresholds th db) in *.
  unfold set_thresholds at 1. unfold scope_of. rewrite Ht.
  fold (for_device x).
  assert (Hcoll : coll db1 "thresholds" = l1 ++ d' :: l2)
    by (unfold coll; by rewrite Hc).
  unfold update_one. rewrite Hcoll.
  rewrite (update_first_app _ _ _ _ _ Hl1 Hm), Hid.
  by apply set_coll_same.
Qed.

Lemma set_thresholds_idempotent_witness :
  truthy (th_device_id th_d1) <> None /\
  set_thresholds th_d1 (set_thresholds th_d1 empty_db)
  = set_thresholds th_d1 empty_db.
Proof.
  assert (H : truthy (th_device_id th_d1) <> None) by discriminate.
  split; [exact H | exact (set_thresholds_idempotent th_d1 empty_db H)].
Defined.

Lemma scope_not_for_device th d x :
  truthy (th_device_id th) <> Some x ->
  matches (scope_of (th_device_id th)) d = true ->
  matches (for_device x) d = false.
Proof.
  intros Hne Hm. unfold scope_of in Hm.
  destruct (truthy (th_device_id th)) as [y|].
  - apply matches_for_device in Hm. apply matches_for_device_false.
    rewrite Hm. intros [= ->]. by apply Hne.
  - apply matches_for_device_false.
    unfold matches in Hm; cbn [forallb fst snd] in Hm.
    rewrite to_dict_field in Hm by done.
    by destruct (doc_fields d !! "device_id").
Qed.

(** X11. Scopes do not leak into one another on reads: a write under any
    other scope -- another device's or the global one -- leaves the
    records of device [x], and so the answer of the read for [x],
    exactly as they were. *)
Theorem get_thresholds_other_scope th db x :
  x <> "" ->
  truthy (th_device_id th) <> Some x ->
  find "thresholds" (for_device x) (set_thresholds th db)
    = find "thresholds" (for_device x) db /\
  get_thresholds (Some x) (set_thresholds th db) = get_thresholds (Some x) db.
Proof.
  intros Hx Hne.
  assert (Hfind : find "thresholds" (for_device x) (set_thresholds th db)
                  = find "thresholds" (for_device x) db).
  { unfold find, set_thresholds, update_one.
    destruct (update_first _ _ (coll db "thresholds")) as [l'|] eqn:E.
    - rewrite coll_set_coll_eq.
      destruct (update_first_split _ _ _ _ E)
        as (l1 & d & l2 & -> & -> & Hm & _).
      rewrite !List.filter_app. cbn [List.filter].
      rewrite (set_thresholds_update_device_id th d x Hx Hm).
      by rewrite (scope_not_for_device th d x Hne Hm).
    - rewrite coll_insert_one_eq, List.filter_app. cbn [List.filter].
      rewrite matches_for_device_false; [by rewrite app_nil_r|].
      cbn [doc_fields].
      erewrite lookup_union_Some_l by apply Thresholds_dump_device_id.
      intros [= E']. apply Hne.
      destruct (th_device_id th) as [y|]; [|discriminate].
      cbn [opt] in E'. injection E' as ->. cbn [truthy].
      by rewrite (proj2 (String.eqb_neq x "") Hx). }
  split; [exact Hfind|].
  unfold get_thresholds, find_one, scope_of; cbn [truthy].
  rewrite (proj2 (String.eqb_neq x "") Hx). fold (for_device x).
  by rewrite Hfind.
Qed.

Lemma get_thresholds_other_scope_witness :
  "d1" <> "" /\
  truthy (th_device_id th_custom) <> Some "d1" /\
  get_thresholds (Some "d1") (set_thresholds th_custom (set_thresholds th_d1 empty_db))
  = get_thresholds (Some "d1") (set_thresholds th_d1 empty_db).
Proof.
  assert (H1 : "d1" <> "") by discriminate.
  assert (H2 : truthy (th_device_id th_custom) <> Some "d1") by discriminate.
  split_and!; [exact H1 | exact H2 |].
  exact (proj2 (get_thresholds_other_scope th_custom
                  (set_thresholds th_d1 empty_db) "d1" H1 H2)).
Defined.

(** X12. However many writes come in and under whatever scopes, a
    non-empty [device_id] that had at most one threshold record still has
    at most one. *)
Theorem thresholds_per_device_unique ths db x :
  x <> "" ->
  (length (find "thresholds" (for_device x) db) <= 1)%nat ->
  (length (find "thresholds" (for_device x) (set_all ths db)) <= 1)%nat.
Proof.
  intros Hx. revert db.
  induction ths as [|th ths IH]; intros db Hlen; [done|].
  cbn [set_all fold_left]. apply IH.
  by apply set_thresholds_per_device_unique.
Qed.

Lemma thresholds_per_device_unique_witness :
  "d1" <> "" /\
  (length (find "thresholds" (for_device "d1") empty_db) <= 1)%nat /\
  (length (find "thresholds" (for_device "d1")
             (set_all [th_d1; th_custom; th_d1] empty_db)) <= 1)%nat.
Proof.
  assert (H1 : "d1" <> "") by discriminate.
  assert (H2 : (length (find "thresholds" (for_device "d1") empty_db) <= 1)%nat)
    by (vm_compute; lia).
  split_and!; [exact H1 | exact H2 |].
  exact (thresholds_per_device_unique [th_d1; th_custom; th_d1] empty_db
           "d1" H1 H2).
Defined.

Lemma set_all_has_device_id ths : forall db,
  Forall has_device_id (coll db "thresholds") ->
  Forall has_device_id (coll (set_all ths db) "thresholds").
Proof.
  induction ths as [|th ths IH]; intros db H; [done|].
  cbn [set_all fold_left]. apply IH. by apply set_thresholds_has_device_id.
Qed.

(** X13. No sequence of threshold writes on a fresh store makes the
    global read answer anything but the schema defaults: the read with no
    [device_id], or with the empty one, looks for a record without a
    [device_id] key, and every record written binds that key. *)
Theorem get_thresholds_global_after_writes ths :
  get_thresholds None (set_all ths empty_db)
    = Thresholds_dump (Thresholds_new None) /\
  get_thresholds (Some "") (set_all ths empty_db)
    = Thresholds_dump (Thresholds_new (Some "")).
Proof.
  assert (H : Forall has_device_id (coll (set_all ths empty_db) "thresholds")).
  { apply set_all_has_device_id. constructor. }
  split; by apply get_thresholds_global_defaults.
Qed.

(** X14. Global writes pile up: on a store whose threshold records all
    bind [device_id], n writes with no (or an empty) [device_id] leave n
    more records. *)
Theorem thresholds_global_writes_accumulate ths db :
  Forall has_device_id (coll db "thresholds") ->
  Forall (fun th => truthy (th_device_id th) = None) ths ->
  length (coll (set_all ths db) "thresholds")
  = (length (coll db "thresholds") + length ths)%nat.
Proof.
  revert db. induction ths as [|th ths IH]; intros db Hall Hths.
  - cbn. lia.
  - apply Forall_cons in Hths as [Hth Hths]. cbn [set_all fold_left].
    fold (set_all ths (set_thresholds th db)).
    rewrite IH; [|by apply set_thresholds_has_device_id | done].
    rewrite (set_thresholds_global_appends th db Hth Hall).
    rewrite length_app. cbn [length]. lia.
Qed.

Lemma thresholds_global_writes_accumulate_witness :
  Forall has_device_id (coll empty_db "thresholds") /\
  Forall (fun th => truthy (th_device_id th) = None)
    [th_default; th_custom; th_default] /\
  length (coll (set_all [th_default; th_custom; th_default] empty_db)
            "thresholds") = (0 + 3)%nat.
Proof.
  assert (H1 : Forall has_device_id (coll empty_db "thresholds"))
    by constructor.
  assert (H2 : Forall (fun th => truthy (th_device_id th) = None)
                 [th_default; th_custom; th_default])
    by (repeat constructor).
  split_and!; [exact H1 | exact H2 |].
  exact (thresholds_global_writes_accumulate
           [th_default; th_custom; th_default] empty_db H1 H2).
Defined.

(** ** The command queue, continued *)

Lemma sort_key_created_at d t :
  created_at d = Some t -> sort_key "created_at" d = VTime t.
Proof.
  unfold created_at, sort_key. rewrite to_dict_field by done.
  destruct (doc_fields d !! "created_at") as [[]|]; try discriminate.
  by intros [= ->].
Qed.

(** The head of an ascending sort is a least element, for documents whose
    sort key is a datetime. *)
Lemma sort_docs_head_least l : forall x,
  Forall (fun d => is_Some (created_at d)) l ->
  head (sort_docs "created_at" Asc l) = Some x ->
  forall y, y ∈ l -> key_leb "created_at" Asc x y = true.
Proof.
  induction l as [|a l IH]; intros x Hall Hx y Hy.
  - by apply elem_of_nil in Hy.
  - apply Forall_cons in Hall as [[ta Ha] Hall].
    assert (Hkey : forall z, z ∈ a :: l ->
              exists t, sort_key "created_at" z = VTime t).
    { intros z Hz. apply elem_of_cons in Hz as [->|Hz].
      - exists ta. by apply sort_key_created_at.
      - rewrite Forall_forall in Hall. destruct (Hall z Hz) as [t Ht].
        exists t. by apply sort_key_created_at. }
    unfold sort_docs in Hx; cbn [foldr] in Hx.
    fold (sort_docs "created_at" Asc l) in Hx.
    destruct (sort_docs "created_at" Asc l) as [|h s] eqn:E.
    + cbn in Hx. injection Hx as <-.
      assert (l = []) as ->.
      { destruct l as [|z l']; [done|]. exfalso.
        assert (z ∈ sort_docs "created_at" Asc (z :: l')) as Hz
          by (apply sort_docs_elem; left).
        rewrite E in Hz. by apply elem_of_nil in Hz. }
      apply list_elem_of_singleton in Hy as ->.
      unfold key_leb. destruct (Hkey a) as [t ->]; [left|].
      cbn [value_leb]. apply Z.leb_refl.
    + assert (Hh : h ∈ l) by (apply (sort_docs_elem "created_at" Asc);
                               rewrite E; left).
      specialize (IH h Hall eq_refl).
      destruct (Hkey a) as [t1 Ht1]; [left|].
      destruct (Hkey h) as [t2 Ht2]; [by right|].
      destruct (Hkey y Hy) as [t3 Ht3].
      cbn [insert_sorted] in Hx. unfold key_leb in *.
      rewrite Ht1, Ht2 in Hx. cbn [value_leb] in Hx.
      destruct (Z.leb_spec t1 t2) as [H12|H12]; cbn [head] in Hx;
        injection Hx as <-.
      * rewrite Ht1, Ht3. cbn [value_leb]. apply Z.leb_le.
        apply elem_of_cons in Hy as [->|Hy].
        -- rewrite Ht1 in Ht3. injection Ht3 as <-. lia.
        -- specialize (IH y Hy). rewrite Ht2, Ht3 in IH.
           cbn [value_leb] in IH. apply Z.leb_le in IH. lia.
      * apply elem_of_cons in Hy as [->|Hy].
        -- rewrite Ht2, Ht1. cbn [value_leb]. apply Z.leb_le. lia.
        -- by apply IH.
Qed.

(** X15. Oldest first, on any store: when the pending commands of a
    device carry a datetime [created_at] (every command the enqueue
    handler stores does), the command a poll returns is one of them and
    none of them was enqueued earlier. *)
Theorem next_command_oldest device_id db db' cmd :
  Forall (fun d => is_Some (created_at d))
    (find "devicecommand" (for_device device_id) db) ->
  next_command device_id db = (db', Some cmd) ->
  exists d t,
    d ∈ find "devicecommand" (for_device device_id) db /\
    cmd = with_str_id d /\
    created_at d = Some t /\
    forall d' t',
      d' ∈ find "devicecommand" (for_device device_id) db ->
      created_at d' = Some t' -> t <= t'.
Proof.
  intros Hall Hn. unfold next_command in Hn. fold (for_device device_id) in Hn.
  destruct (find_one_sorted _ _ _ _ db) as [d|] eqn:Hf; [|discriminate].
  injection Hn as _ <-.
  unfold find_one_sorted in Hf.
  assert (Hd : d ∈ find "devicecommand" (for_device device_id) db).
  { apply (sort_docs_elem "created_at" Asc). by apply head_Some_elem_of. }
  rewrite Forall_forall in Hall. destruct (Hall d Hd) as [t Ht].
  exists d, t. split_and!; try done.
  intros d' t' Hd' Ht'.
  pose proof (sort_docs_head_least _ d (proj2 (Forall_forall _ _) Hall) Hf d' Hd')
    as Hle.
  unfold key_leb in Hle.
  rewrite (sort_key_created_at _ _ Ht), (sort_key_created_at _ _ Ht') in Hle.
  by apply Z.leb_le in Hle.
Qed.

Lemma next_command_oldest_witness :
  Forall (fun d => is_Some (created_at d))
    (find "devicecommand" (for_device "d1") db_two_commands) /\
  exists d t,
    d ∈ find "devicecommand" (for_device "d1") db_two_commands /\
    with_str_id (stored_command 0%N cmd_fan3 10) = with_str_id d /\
    created_at d = Some t /\
    forall d' t',
      d' ∈ find "devicecommand" (for_device "d1") db_two_commands ->
      created_at d' = Some t' -> t <= t'.
Proof.
  assert (H : Forall (fun d => is_Some (created_at d))
                (find "devicecommand" (for_device "d1") db_two_commands)).
  { vm_compute. repeat constructor; by eexists. }
  split; [exact H|].
  exact (next_command_oldest "d1" db_two_commands
           (fst (next_command "d1" db_two_commands))
           (with_str_id (stored_command 0%N cmd_fan3 10)) H eq_refl).
Defined.

Lemma next_command_snd_find device_id db1 db2 :
  find "devicecommand" (for_device device_id) db1
  = find "devicecommand" (for_device device_id) db2 ->
  snd (next_command device_id db1) = snd (next_command device_id db2).
Proof.
  intros H. unfold next_command, find_one_sorted.
  fold (for_device device_id). rewrite H.
  by destruct (head _).
Qed.

Lemma for_device_other a b d :
  a <> b ->
  matches (for_device a) d = true -> matches (for_device b) d = false.
Proof.
  intros Hne Ha. apply matches_for_device in Ha.
  apply matches_for_device_false. rewrite Ha. intros [= E]. by apply Hne.
Qed.

(** X16. The queues of different devices are independent: what a poll of
    device [b] returns is changed neither by an enqueue for another
    device [a] nor by a poll of [a] that went before it. *)
Theorem queues_independent a b cmd now db :
  NoDup (ids (coll db "devicecommand")) ->
  a <> b ->
  dc_device_id cmd = a ->
  snd (next_command b (fst (push_command cmd now db)))
    = snd (next_command b db) /\
  snd (next_command b (fst (next_command a db))) = snd (next_command b db).
Proof.
  intros Hnd Hne Hcmd. split; apply next_command_snd_find.
  - unfold find. rewrite push_command_coll, List.filter_app.
    cbn [List.filter].
    rewrite (for_device_other a b); [by rewrite app_nil_r | done |].
    apply matches_for_device. by rewrite stored_command_device, Hcmd.
  - destruct (find_one_sorted "devicecommand" (for_device a) "created_at"
                Asc db) as [x|] eqn:Hf.
    + destruct (find_one_sorted_elem _ _ _ _ _ _ Hf) as [_ Hx].
      destruct (next_command_found _ _ _ Hnd Hf) as (l1 & l2 & E & ->).
      unfold find. cbn [fst]. rewrite coll_set_coll_eq, E.
      rewrite !List.filter_app. cbn [List.filter].
      by rewrite (for_device_other a b x Hne Hx).
    + by rewrite (next_command_empty _ _
                    (find_one_sorted_None _ _ _ _ _ Hf)).
Qed.

Lemma queues_independent_witness :
  NoDup (ids (coll db_two_commands "devicecommand")) /\
  "d1" <> "d2" /\
  dc_device_id cmd_off = "d1" /\
  snd (next_command "d2" (fst (push_command cmd_off 30 db_two_commands)))
    = snd (next_command "d2" db_two_commands) /\
  snd (next_command "d2" (fst (next_command "d1" db_two_commands)))
    = snd (next_command "d2" db_two_commands).
Proof.
  assert (H1 : NoDup (ids (coll db_two_commands "devicecommand"))).
  { vm_compute. repeat constructor; rewrite ?elem_of_cons, ?elem_of_nil;
      intuition discriminate. }
  assert (H2 : "d1" <> "d2") by discriminate.
  assert (H3 : dc_device_id cmd_off = "d1") by reflexivity.
  split_and!; [exact H1 | exact H2 | exact H3 | |];
    apply (queues_independent "d1" "d2" cmd_off 30 db_two_commands H1 H2 H3).
Defined.

(** X17. The stored document determines the command: two commands with
    the same [model_dump(exclude_none=True)] are the same command, so
    leaving out the fields that were not given loses nothing. *)
Theorem DeviceCommand_dump_injective c1 c2 :
  DeviceCommand_dump_exclude_none c1 = DeviceCommand_dump_exclude_none c2 ->
  c1 = c2.
Proof.
  intros H.
  assert (Hl : forall k, DeviceCommand_dump_exclude_none c1 !! k
                         = DeviceCommand_dump_exclude_none c2 !! k)
    by (intros k; by rewrite H).
  pose proof (Hl "device_id") as Hd. pose proof (Hl "power") as Hp.
  pose proof (Hl "mode") as Hm. pose proof (Hl "fan_speed") as Hf.
  clear H Hl.
  destruct c1 as [i1 [p1|] [m1|] [f1|]], c2 as [i2 [p2|] [m2|] [f2|]];
    vm_compute in Hd, Hp, Hm, Hf; try discriminate;
    injection Hd as ->;
    repeat match goal with
           | H : Some _ = Some _ |- _ => injection H as H
           | H : None = None |- _ => clear H
           end;
    subst;
    try (destruct m1, m2; try discriminate); reflexivity.
Qed.

Lemma DeviceCommand_dump_injective_witness :
  DeviceCommand_dump_exclude_none cmd_fan3
    = DeviceCommand_dump_exclude_none cmd_fan3 /\
  cmd_fan3 = cmd_fan3.
Proof.
  split; [reflexivity|].
  exact (DeviceCommand_dump_injective cmd_fan3 cmd_fan3 eq_refl).
Defined.

Lemma StronglySorted_snoc {A} (R : A -> A -> Prop) l x :
  StronglySorted R l -> Forall (fun y => R y x) l ->
  StronglySorted R (l ++ [x]).
Proof.
  induction 1 as [|a l Hs IH Ha]; intros Hall; cbn [app].
  - repeat constructor.
  - apply Forall_cons in Hall as [Hax Hall]. constructor; [by apply IH|].
    apply Forall_app. split; [done|]. by constructor.
Qed.

Lemma matches_stored_command device_id i c t :
  matches (for_device device_id) (stored_command i c t)
  = String.eqb (dc_device_id c) device_id.
Proof.
  destruct (String.eqb_spec (dc_device_id c) device_id) as [E|Hne].
  - apply matches_for_device. by rewrite stored_command_device, E.
  - apply matches_for_device_false. rewrite stored_command_device.
    intros [= E]. by apply Hne.
Qed.

(** A poll hands out the head of the device's pending commands when none
    of the others is older, and leaves the rest pending. *)
Lemma next_command_head device_id db x q :
  wf_coll db "devicecommand" ->
  find "devicecommand" (for_device device_id) db = x :: q ->
  Forall (fun y => key_leb "created_at" Asc x y = true) q ->
  exists db',
    next_command device_id db = (db', Some (with_str_id x)) /\
    find "devicecommand" (for_device device_id) db' = q /\
    wf_coll db' "devicecommand" /\
    next_oid db' = next_oid db.
Proof.
  intros [Hnd Hlt] Hq Hle.
  assert (Hf : find_one_sorted "devicecommand" (for_device device_id)
                 "created_at" Asc db = Some x).
  { unfold find_one_sorted. rewrite Hq. by apply sort_docs_head. }
  destruct (next_command_found _ _ _ Hnd Hf) as (l1 & l2 & E & Hn).
  exists (set_coll "devicecommand" (l1 ++ l2) db).
  assert (Hx : matches (for_device device_id) x = true)
    by (by destruct (find_one_sorted_elem _ _ _ _ _ _ Hf)).
  unfold find in Hq. rewrite E, List.filter_app in Hq.
  cbn [List.filter] in Hq. rewrite Hx in Hq.
  assert (Hl1 : List.filter (matches (for_device device_id)) l1 = []).
  { destruct (List.filter _ l1) as [|z zs] eqn:Hz; [done|]. exfalso.
    cbn [app] in Hq. injection Hq as -> _.
    assert (Hin : In x (List.filter (matches (for_device device_id)) l1))
      by (rewrite Hz; by left).
    apply filter_In in Hin as [Hin _]. apply list_elem_of_In in Hin.
    rewrite E in Hnd. unfold ids in Hnd. rewrite map_app in Hnd.
    apply NoDup_app in Hnd as (_ & Hdisj & _).
    apply (Hdisj (doc_id x)); [by apply list_elem_of_fmap_2 | left]. }
  rewrite Hl1 in Hq. cbn [app] in Hq. injection Hq as Hq.
  split_and!.
  - exact Hn.
  - unfold find. rewrite coll_set_coll_eq, List.filter_app, Hl1. exact Hq.
  - unfold wf_coll. rewrite coll_set_coll_eq. split.
    + apply (NoDup_ids_remove l1 x l2). by rewrite <- E.
    + rewrite E in Hlt. apply Forall_app in Hlt as [H1 H2].
      apply Forall_cons in H2 as [_ H2]. apply Forall_app. by split.
  - reflexivity.
Qed.

Lemma run_queue_fifo device_id ops : forall db q,
  wf_coll db "devicecommand" ->
  find "devicecommand" (for_device device_id) db = q ->
  StronglySorted Z.lt (enqueue_times ops) ->
  Forall (fun x => exists t, sort_key "created_at" x = VTime t /\
                             Forall (Z.lt t) (enqueue_times ops)) q ->
  StronglySorted (fun a b => key_leb "created_at" Asc a b = true) q ->
  snd (run_queue device_id ops db) = fifo_model device_id ops (next_oid db) q.
Proof.
  induction ops as [|[c t|] ops IH]; intros db q Hwf Hq Hts Hold Hsorted.
  - reflexivity.
  - cbn [run_queue fifo_model enqueue_times] in *.
    apply StronglySorted_inv in Hts as [Hts Ht].
    rewrite (IH (fst (push_command c t db))
               (if String.eqb (dc_device_id c) device_id
                then q ++ [stored_command (next_oid db) c t] else q)).
    + by rewrite push_command_next_oid.
    + unfold push_command. rewrite create_document_fst.
      by apply wf_coll_insert_one.
    + unfold find. rewrite push_command_coll, List.filter_app.
      cbn [List.filter]. rewrite matches_stored_command.
      unfold find in Hq. rewrite Hq.
      destruct (String.eqb _ _); [done | by rewrite app_nil_r].
    + exact Hts.
    + assert (Hold' : Forall (fun x => exists t0,
                  sort_key "created_at" x = VTime t0 /\
                  Forall (Z.lt t0) (enqueue_times ops)) q).
      { eapply Forall_impl; [exact Hold|]. cbn beta.
        intros x (t0 & Hk & Hall). exists t0. split; [done|].
        by apply Forall_cons in Hall as [_ Hall]. }
      destruct (String.eqb _ _); [|done].
      apply Forall_app. split; [done|]. constructor; [|done].
      exists t. split; [apply stored_command_key | done].
    + destruct (String.eqb _ _); [|done].
      apply StronglySorted_snoc; [done|].
      eapply Forall_impl; [exact Hold|]. cbn beta.
      intros x (t0 & Hk & Hall). apply Forall_cons in Hall as [Hlt _].
      unfold key_leb. rewrite Hk, stored_command_key. cbn [value_leb].
      apply Z.leb_le. lia.
  - cbn [run_queue fifo_model enqueue_times] in *.
    destruct q as [|x q].
    + rewrite (next_command_empty _ _ Hq).
      specialize (IH db [] Hwf Hq Hts Hold Hsorted).
      destruct (run_queue device_id ops db) as [db2 rs]. cbn [snd] in *.
      by rewrite IH.
    + apply StronglySorted_inv in Hsorted as [Hsorted Hle].
      apply Forall_cons in Hold as [_ Hold].
      destruct (next_command_head device_id db x q Hwf Hq Hle)
        as (db' & -> & Hq' & Hwf' & Hoid).
      specialize (IH db' q Hwf' Hq' Hts Hold Hsorted).
      destruct (run_queue device_id ops db') as [db2 rs]. cbn [snd] in *.
      by rewrite IH, Hoid.
Qed.

(** X18. The queue of a device is first-in first-out under any
    interleaving of enqueues and polls: on a well-formed store where the
    device has nothing pending, and with enqueue instants that increase,
    the answers of the polls of a trace are those of a reference FIFO
    queue that is fed the trace's enqueues for that device.  Enqueues for
    other devices in between change nothing. *)
Theorem queue_refines_fifo device_id ops db :
  wf_coll db "devicecommand" ->
  find "devicecommand" (for_device device_id) db = [] ->
  StronglySorted Z.lt (enqueue_times ops) ->
  snd (run_queue device_id ops db)
  = fifo_model device_id ops (next_oid db) [].
Proof.
  intros Hwf Hq Hts. apply run_queue_fifo; try done; constructor.
Qed.

Lemma queue_refines_fifo_witness :
  let ops := [Enqueue cmd_fan3 10; Dequeue; Dequeue; Enqueue cmd_d2 20;
              Enqueue cmd_off 30; Enqueue cmd_fan3 40; Dequeue; Dequeue;
              Dequeue] in
  wf_coll empty_db "devicecommand" /\
  find "devicecommand" (for_device "d1") empty_db = [] /\
  StronglySorted Z.lt (enqueue_times ops) /\
  snd (run_queue "d1" ops empty_db)
  = [Some (with_str_id (stored_command 0%N cmd_fan3 10)); None;
     Some (with_str_id (stored_command 2%N cmd_off 30));
     Some (with_str_id (stored_command 3%N cmd_fan3 40)); None].
Proof.
  intros ops.
  assert (H1 : wf_coll empty_db "devicecommand") by (split; constructor).
  assert (H2 : find "devicecommand" (for_device "d1") empty_db = [])
    by reflexivity.
  assert (H3 : StronglySorted Z.lt (enqueue_times ops))
    by (repeat constructor; simpl; lia).
  split_and!; [exact H1 | exact H2 | exact H3 |].
  exact (queue_refines_fifo "d1" ops empty_db H1 H2 H3).
Defined.

(** ** Two polls in a race, continued *)

Lemma poll_step_ok db0 device_id p db :
  (forall x, x ∈ coll db "devicecommand" -> x ∈ coll db0 "devicecommand") ->
  poll_ok db0 device_id p ->
  (forall x, x ∈ coll (fst (poll_step p db)) "devicecommand" ->
             x ∈ coll db0 "devicecommand") /\
  poll_ok db0 device_id (snd (poll_step p db)).
Proof.
  intros Hsub Hp. destruct p as [device_id' | d | [cmd|]]; cbn [poll_step].
  - cbn [poll_ok] in Hp. subst device_id'. fold (for_device device_id).
    destruct (find_one_sorted _ _ _ _ db) as [d|] eqn:Hf; cbn [fst snd poll_ok].
    + split; [done|].
      destruct (find_one_sorted_elem _ _ _ _ _ _ Hf) as [Hin Hm].
      split; [by apply Hsub | by apply matches_for_device].
    + by split.
  - cbn [fst snd poll_ok] in *. split.
    + intros x Hx. apply Hsub. unfold delete_one in Hx.
      rewrite coll_set_coll_eq in Hx. by apply delete_first_sub in Hx.
    + destruct Hp as [Hin Hd]. by exists d.
  - by split.
  - by split.
Qed.

Lemma run_race_ok db0 a b sched : forall s,
  (forall x, x ∈ coll (race_db s) "devicecommand" ->
             x ∈ coll db0 "devicecommand") ->
  poll_ok db0 a (race_a s) -> poll_ok db0 b (race_b s) ->
  let s' := run_race sched s in
  (forall x, x ∈ coll (race_db s') "devicecommand" ->
             x ∈ coll db0 "devicecommand") /\
  poll_ok db0 a (race_a s') /\ poll_ok db0 b (race_b s').
Proof.
  induction sched as [|c sched IH]; intros s Hsub Ha Hb; [done|].
  cbn [run_race fold_left]. apply IH; destruct s as [db pa pb];
    cbn [race_db race_a race_b] in *; destruct c;
    cbn [race_step race_db race_a race_b].
  - pose proof (poll_step_ok db0 a pa db Hsub Ha) as [H _].
    by destruct (poll_step pa db).
  - pose proof (poll_step_ok db0 b pb db Hsub Hb) as [H _].
    by destruct (poll_step pb db).
  - pose proof (poll_step_ok db0 a pa db Hsub Ha) as [_ H].
    by destruct (poll_step pa db).
  - by destruct (poll_step pb db).
  - by destruct (poll_step pa db).
  - pose proof (poll_step_ok db0 b pb db Hsub Hb) as [_ H].
    by destruct (poll_step pb db).
Qed.

(** X19. Whatever the interleaving of two polls, and on any store: a
    command a caller is answered with is a command that was stored for
    the device that caller polled, and the polls add nothing to the
    collection. *)
Theorem race_delivers_stored_commands a b db sched :
  let s := run_race sched (Race db (Polling a) (Polling b)) in
  (forall cmd, delivered (race_a s) = Some cmd ->
     exists d, d ∈ coll db "devicecommand" /\
               doc_fields d !! "device_id" = Some (VStr a) /\
               cmd = with_str_id d) /\
  (forall cmd, delivered (race_b s) = Some cmd ->
     exists d, d ∈ coll db "devicecommand" /\
               doc_fields d !! "device_id" = Some (VStr b) /\
               cmd = with_str_id d) /\
  (forall x, x ∈ coll (race_db s) "devicecommand" ->
             x ∈ coll db "devicecommand").
Proof.
  intros s.
  destruct (run_race_ok db a b sched (Race db (Polling a) (Polling b)))
    as (Hsub & Ha & Hb); try done.
  fold s in Hsub, Ha, Hb. split_and!; [| |exact Hsub].
  - intros cmd Hc. destruct (race_a s) as [?|?|[c|]]; try discriminate.
    cbn [delivered] in Hc. injection Hc as ->. exact Ha.
  - intros cmd Hc. destruct (race_b s) as [?|?|[c|]]; try discriminate.
    cbn [delivered] in Hc. injection Hc as ->. exact Hb.
Qed.

(** ** The latest readings *)

Lemma insert_sorted_length le x l :
  length (insert_sorted le x l) = S (length l).
Proof.
  induction l as [|y l IH]; cbn [insert_sorted length]; [done|].
  destruct (le x y); cbn [length]; [done | by rewrite IH].
Qed.

Lemma sort_docs_length k dir l : length (sort_docs k dir l) = length l.
Proof.
  unfold sort_docs. induction l as [|x l IH]; cbn [foldr length]; [done|].
  by rewrite insert_sorted_length, IH.
Qed.

Lemma limit_docs_elem n l x : x ∈ limit_docs n l -> x ∈ l.
Proof.
  unfold limit_docs. destruct (Z.eqb n 0); [done|].
  apply subseteq_take.
Qed.

Lemma limit_docs_length n l :
  length (limit_docs n l)
  = if Z.eqb n 0 then length l
    else Nat.min (Z.to_nat (Z.abs n)) (length l).
Proof.
  unfold limit_docs. destruct (Z.eqb n 0); [done|]. apply length_take.
Qed.

Lemma latest_readings_docs isoformat device_id limit db r :
  r ∈ get_latest_readings isoformat device_id limit db ->
  exists d,
    r = render_reading isoformat d /\
    d ∈ coll db "sensorreading" /\
    forall x, truthy device_id = Some x ->
              doc_fields d !! "device_id" = Some (VStr x).
Proof.
  unfold get_latest_readings. intros Hr.
  apply list_elem_of_fmap in Hr as (d & -> & Hd).
  apply limit_docs_elem, sort_docs_elem in Hd.
  unfold find in Hd. apply list_elem_of_In, filter_In in Hd as [Hin Hm].
  exists d. split_and!; [done | by apply list_elem_of_In |].
  intros x Hx. rewrite Hx in Hm. by apply matches_for_device in Hm.
Qed.

(** X20. With a non-empty [device_id], the latest readings are readings
    of that device only: every one returned is a rendering of a stored
    reading whose [device_id] is the one asked for, and says so. *)
Theorem latest_readings_of_device isoformat (device_id : string) limit db r :
  device_id <> "" ->
  r ∈ get_latest_readings isoformat (Some device_id) limit db ->
  r !! "device_id" = Some (VStr device_id) /\
  exists d, d ∈ coll db "sensorreading" /\
            doc_fields d !! "device_id" = Some (VStr device_id) /\
            r = render_reading isoformat d.
Proof.
  intros Hne Hr.
  destruct (latest_readings_docs _ _ _ _ _ Hr) as (d & -> & Hin & Hd).
  assert (Hdev : doc_fields d !! "device_id" = Some (VStr device_id)).
  { apply Hd. cbn [truthy]. by rewrite (proj2 (String.eqb_neq _ _) Hne). }
  split; [|by exists d].
  unfold render_reading. rewrite lookup_insert_ne by done.
  rewrite lookup_fmap, to_dict_field by done. by rewrite Hdev.
Qed.

Lemma latest_readings_of_device_witness :
  let r := render_reading (fun _ => "T") (Document 4%N
             (<["aqi" := VInt 2]> (<["timestamp" := VTime 300]>
                (SensorReading_dump reading_half)))) in
  "d1" <> "" /\
  r ∈ get_latest_readings (fun _ => "T") (Some "d1") 1 db_three_readings /\
  r !! "device_id" = Some (VStr "d1").
Proof.
  intros r.
  assert (H1 : "d1" <> "") by discriminate.
  assert (H2 : r ∈ get_latest_readings (fun _ => "T") (Some "d1") 1
                     db_three_readings).
  { vm_compute. left. }
  split_and!; [exact H1 | exact H2 |].
  exact (proj1 (latest_readings_of_device (fun _ => "T") "d1" 1
                  db_three_readings r H1 H2)).
Defined.

(** X21. How many readings come back, for a [limit] that is not
    negative: without a device filter, all of the collection when [limit]
    is 0 and the first [limit] of them (or all, if there are fewer)
    otherwise; and a device filter never returns more than no filter
    does. *)
Theorem latest_readings_length isoformat device_id limit db :
  0 <= limit ->
  length (get_latest_readings isoformat None limit db)
  = (if Z.eqb limit 0 then length (coll db "sensorreading")
     else Nat.min (Z.to_nat limit) (length (coll db "sensorreading"))) /\
  (length (get_latest_readings isoformat device_id limit db)
   <= length (get_latest_readings isoformat None limit db))%nat.
Proof.
  intros Hlimit. unfold get_latest_readings. cbn [truthy].
  rewrite !length_map, !limit_docs_length, !sort_docs_length, find_all.
  rewrite (Z.abs_eq limit Hlimit).
  split; [done|].
  match goal with
  | |- context [length (find "sensorreading" ?q db)] =>
      assert (Hle : (length (find "sensorreading" q db)
                     <= length (coll db "sensorreading"))%nat)
        by apply List.filter_length_le;
      revert Hle;
      generalize (length (find "sensorreading" q db));
      generalize (length (coll db "sensorreading"))
  end.
  intros m n Hle.
  destruct (Z.eqb limit 0); [done | by apply Nat.min_le_compat_l].
Qed.

Lemma latest_readings_length_witness :
  0 <= 2 /\
  length (get_latest_readings (fun _ => "T") None 2 db_three_readings)
  = Nat.min (Z.to_nat 2) (length (coll db_three_readings "sensorreading")) /\
  (length (get_latest_readings (fun _ => "T") (Some "d2") 2 db_three_readings)
   <= length (get_latest_readings (fun _ => "T") None 2 db_three_readings))%nat.
Proof.
  assert (H : 0 <= 2) by lia.
  split; [exact H|].
  exact (latest_readings_length (fun _ => "T") (Some "d2") 2
           db_three_readings H).
Defined.

Section SortSorted.

Variable le : document -> document -> bool.
Variable P : document -> Prop.
Variable R : document -> document -> Prop.
Hypothesis le_R : forall a b, P a -> P b -> le a b = true -> R a b.
Hypothesis nle_R : forall a b, P a -> P b -> le a b = false -> R b a.
Hypothesis R_trans : forall a b c, R a b -> R b c -> R a c.

Lemma insert_sorted_sorted x s :
  P x -> Forall P s -> StronglySorted R s ->
  StronglySorted R (insert_sorted le x s).
Proof.
  intros Hx HP Hs. induction Hs as [|y s Hs IH Hy]; cbn [insert_sorted].
  - repeat constructor.
  - apply Forall_cons in HP as [Py HP].
    destruct (le x y) eqn:E.
    + constructor; [by constructor|]. constructor; [by apply le_R|].
      eapply Forall_impl; [exact Hy|]. cbn beta. intros z Hz.
      apply (R_trans x y z); [by apply le_R | done].
    + constructor; [by apply IH|].
      rewrite Forall_forall. intros z Hz.
      apply insert_sorted_elem in Hz as [->|Hz]; [by apply nle_R|].
      rewrite Forall_forall in Hy. by apply Hy.
Qed.

Lemma foldr_insert_sorted l :
  Forall P l -> StronglySorted R (foldr (insert_sorted le) [] l).
Proof.
  induction 1 as [|x l Hx Hl IH]; cbn [foldr]; [constructor|].
  apply insert_sorted_sorted; [done | | done].
  clear -Hl. rewrite Forall_forall in *. intros y Hy. apply Hl.
  revert Hy. clear. induction l as [|z l IH]; cbn [foldr]; [done|].
  intros Hy. apply insert_sorted_elem in Hy as [->|Hy]; [left | right; auto].
Qed.

End SortSorted.

Lemma StronglySorted_take {A} (R : A -> A -> Prop) n l :
  StronglySorted R l -> StronglySorted R (take n l).
Proof.
  intros Hs. revert n. induction Hs as [|x l Hs IH Hx]; intros [|n];
    cbn [take]; try constructor; [apply IH|].
  rewrite Forall_forall in *. intros y Hy. apply Hx.
  by apply (subseteq_take n l).
Qed.

Lemma sort_key_reading_time d t :
  reading_time d = Some t -> sort_key "timestamp" d = VTime t.
Proof.
  unfold reading_time, sort_key. rewrite to_dict_field by done.
  destruct (doc_fields d !! "timestamp") as [[]|]; try discriminate.
  by intros [= ->].
Qed.

(** X22. Newest first: when the stored readings carry a datetime
    [timestamp] (every ingested reading does), the readings returned are
    renderings of stored readings in an order in which no reading comes
    before a newer one. *)
Theorem latest_readings_newest_first isoformat device_id limit db :
  Forall (fun d => is_Some (reading_time d)) (coll db "sensorreading") ->
  exists docs,
    get_latest_readings isoformat device_id limit db
      = map (render_reading isoformat) docs /\
    (forall d, d ∈ docs -> d ∈ coll db "sensorreading") /\
    StronglySorted
      (fun a b => exists ta tb,
         reading_time a = Some ta /\ reading_time b = Some tb /\ tb <= ta)
      docs.
Proof.
  intros Hall. unfold get_latest_readings.
  match goal with
  | |- context [find "sensorreading" ?q db] =>
      set (found := find "sensorreading" q db)
  end.
  assert (Hfound : Forall (fun d => is_Some (reading_time d)) found).
  { rewrite Forall_forall in *. intros d Hd. apply Hall.
    unfold found, find in Hd.
    apply list_elem_of_In, filter_In in Hd as [Hd _].
    by apply list_elem_of_In. }
  exists (limit_docs limit (sort_docs "timestamp" Desc found)).
  split_and!; [done | |].
  - intros d Hd. apply limit_docs_elem, sort_docs_elem in Hd.
    unfold found, find in Hd.
    apply list_elem_of_In, filter_In in Hd as [Hd _].
    by apply list_elem_of_In.
  - assert (Hs : StronglySorted
                   (fun a b => exists ta tb,
                      reading_time a = Some ta /\ reading_time b = Some tb /\
                      tb <= ta)
                   (sort_docs "timestamp" Desc found)).
    { unfold sort_docs.
      apply (foldr_insert_sorted _ (fun d => is_Some (reading_time d)));
        [| | | exact Hfound].
      - intros a b [ta Ha] [tb Hb] Hle. exists ta, tb. split_and!; try done.
        unfold key_leb in Hle.
        rewrite (sort_key_reading_time _ _ Ha),
          (sort_key_reading_time _ _ Hb) in Hle.
        by apply Z.leb_le in Hle.
      - intros a b [ta Ha] [tb Hb] Hle. exists tb, ta. split_and!; try done.
        unfold key_leb in Hle.
        rewrite (sort_key_reading_time _ _ Ha),
          (sort_key_reading_time _ _ Hb) in Hle.
        apply Z.leb_gt in Hle. lia.
      - intros a b c (ta & tb & Ha & Hb & Hab) (tb' & tc & Hb' & Hc & Hbc).
        exists ta, tc. split_and!; try done.
        rewrite Hb in Hb'. injection Hb' as <-. lia. }
    unfold limit_docs. destruct (Z.eqb limit 0); [done|].
    by apply StronglySorted_take.
Qed.

Lemma latest_readings_newest_first_witness :
  Forall (fun d => is_Some (reading_time d))
    (coll db_three_readings "sensorreading") /\
  exists docs,
    get_latest_readings (fun _ => "T") None 50 db_three_readings
      = map (render_reading (fun _ => "T")) docs /\
    (forall d, d ∈ docs -> d ∈ coll db_three_readings "sensorreading") /\
    StronglySorted
      (fun a b => exists ta tb,
         reading_time a = Some ta /\ reading_time b = Some tb /\ tb <= ta)
      docs.
Proof.
  assert (H : Forall (fun d => is_Some (reading_time d))
                (coll db_three_readings "sensorreading")).
  { vm_compute. repeat constructor; by eexists. }
  split; [exact H|].
  exact (latest_readings_newest_first (fun _ => "T") None 50
           db_three_readings H).
Defined.

(** X23. What a returned reading looks like: it is a stored reading with
    its [_id] as the 24-digit string and with every datetime turned into
    its ISO string, so no ObjectId is left under [_id] and no datetime
    anywhere; the other values are as stored. *)
Theorem latest_readings_rendered isoformat device_id limit db r :
  r ∈ get_latest_readings isoformat device_id limit db ->
  exists d,
    d ∈ coll db "sensorreading" /\
    r !! "_id" = Some (VStr (str_oid (doc_id d))) /\
    (forall k, k <> "_id" ->
       r !! k = match doc_fields d !! k with
                | Some (VTime t) => Some (VStr (isoformat t))
                | o => o
                end) /\
    (forall k t, r !! k <> Some (VTime t)).
Proof.
  intros Hr.
  destruct (latest_readings_docs _ _ _ _ _ Hr) as (d & -> & Hin & _).
  exists d.
  assert (Hk : forall k, k <> "_id" ->
            render_reading isoformat d !! k
            = match doc_fields d !! k with
              | Some (VTime t) => Some (VStr (isoformat t))
              | o => o
              end).
  { intros k Hne. unfold render_reading. rewrite lookup_insert_ne by done.
    rewrite lookup_fmap, to_dict_field by done.
    by destruct (doc_fields d !! k) as [[]|]. }
  split_and!; try done.
  - unfold render_reading. by rewrite lookup_insert_eq.
  - intros k t. destruct (decide (k = "_id")) as [->|Hne].
    + unfold render_reading. by rewrite lookup_insert_eq.
    + rewrite Hk by done. by destruct (doc_fields d !! k) as [[]|].
Qed.

Lemma latest_readings_rendered_witness :
  let r := render_reading (fun _ => "T") (Document 4%N
             (<["aqi" := VInt 2]> (<["timestamp" := VTime 300]>
                (SensorReading_dump reading_half)))) in
  r ∈ get_latest_readings (fun _ => "T") (Some "d1") 1 db_three_readings /\
  exists d,
    d ∈ coll db_three_readings "sensorreading" /\
    r !! "_id" = Some (VStr (str_oid (doc_id d))) /\
    (forall k, k <> "_id" ->
       r !! k = match doc_fields d !! k with
                | Some (VTime t) => Some (VStr "T")
                | o => o
                end) /\
    (forall k t, r !! k <> Some (VTime t)).
Proof.
  intros r.
  assert (H : r ∈ get_latest_readings (fun _ => "T") (Some "d1") 1
                    db_three_readings).
  { vm_compute. left. }
  split; [exact H|].
  exact (latest_readings_rendered (fun _ => "T") (Some "d1") 1
           db_three_readings r H).
Defined.

(** ** What the handlers leave alone *)

(** X24. Each handler writes to its own collections only: threshold
    writes touch nothing but [thresholds], enqueues and polls nothing but
    [devicecommand], and ingestion neither of the two. *)
Theorem handlers_frame db payload now_ts now_hb th cmd now device_id name :
  (name <> "thresholds" -> coll (set_thresholds th db) name = coll db name) /\
  (name <> "devicecommand" ->
     coll (fst (push_command cmd now db)) name = coll db name /\
     coll (fst (next_command device_id db)) name = coll db name) /\
  (name = "thresholds" \/ name = "devicecommand" ->
     coll (fst (ingest_reading payload now_ts now_hb db)) name = coll db name).
Proof.
  split_and!.
  - intros Hne. by apply coll_update_one_ne.
  - intros Hne. split; [by apply push_command_coll_ne|].
    unfold next_command. destruct (find_one_sorted _ _ _ _ db); [|done].
    cbn [fst]. unfold delete_one. by rewrite coll_set_coll_ne.
  - intros Hname.
    destruct (ingest_reading_appends payload now_ts now_hb db)
      as (i & f & _ & _ & _ & _ & _ & _ & Hframe).
    apply Hframe; destruct Hname as [-> | ->]; discriminate.
Qed.

(** ** Identifier strings *)

Lemma hex_digit_inj a b :
  (a < 16)%N -> (b < 16)%N -> hex_digit a = hex_digit b -> a = b.
Proof.
  intros Ha Hb.
  assert (Hcases : forall n, (n < 16)%N ->
            n = 0%N \/ n = 1%N \/ n = 2%N \/ n = 3%N \/ n = 4%N \/ n = 5%N \/
            n = 6%N \/ n = 7%N \/ n = 8%N \/ n = 9%N \/ n = 10%N \/
            n = 11%N \/ n = 12%N \/ n = 13%N \/ n = 14%N \/ n = 15%N)
    by (intros; lia).
  destruct (Hcases a Ha) as [->|[->|[->|[->|[->|[->|[->|[->|[->|[->|
                             [->|[->|[->|[->|[->| ->]]]]]]]]]]]]]]];
    destruct (Hcases b Hb) as [->|[->|[->|[->|[->|[->|[->|[->|[->|[->|
                               [->|[->|[->|[->|[->| ->]]]]]]]]]]]]]]];
    cbn; intros H; first [reflexivity | discriminate H].
Qed.

Lemma hex_digits_inj k : forall n m acc acc',
  (n < 16 ^ N.of_nat k)%N -> (m < 16 ^ N.of_nat k)%N ->
  hex_digits k n acc = hex_digits k m acc' -> n = m /\ acc = acc'.
Proof.
  induction k as [|k IH]; intros n m acc acc' Hn Hm H.
  - cbn in *. split; [lia | done].
  - cbn [hex_digits] in H.
    rewrite Nat2N.inj_succ, N.pow_succ_r' in Hn, Hm.
    apply IH in H as [Hdiv Hacc].
    + injection Hacc as Hd ->. split; [|done].
      apply hex_digit_inj in Hd; [| by apply N.mod_lt | by apply N.mod_lt].
      rewrite (N.div_mod n 16), (N.div_mod m 16) by done. congruence.
    + apply N.Div0.div_lt_upper_bound. lia.
    + apply N.Div0.div_lt_upper_bound. lia.
Qed.

Lemma str_oid_inj i j :
  (i < 16 ^ 24)%N -> (j < 16 ^ 24)%N -> str_oid i = str_oid j -> i = j.
Proof.
  intros Hi Hj H. by destruct (hex_digits_inj 24 i j "" "" Hi Hj H).
Qed.

(** X25. The identifier strings handed to clients tell documents apart:
    as long as the identifiers fit the 12 bytes of an ObjectId, two
    enqueues one after the other are answered with different strings,
    each the string of the [_id] under which its command was stored. *)
Theorem push_command_ids_distinct c1 t1 c2 t2 db :
  (N.succ (next_oid db) < 16 ^ 24)%N ->
  let r1 := push_command c1 t1 db in
  let r2 := push_command c2 t2 (fst r1) in
  snd r1 <> snd r2 /\
  coll (fst r2) "devicecommand"
  = coll db "devicecommand"
    ++ [stored_command (next_oid db) c1 t1;
        stored_command (N.succ (next_oid db)) c2 t2] /\
  snd r1 = str_oid (next_oid db) /\
  snd r2 = str_oid (N.succ (next_oid db)).
Proof.
  intros Hb r1 r2. split_and!; try reflexivity.
  - intros H. change (str_oid (next_oid db) = str_oid (N.succ (next_oid db)))
      in H.
    apply str_oid_inj in H; lia.
  - unfold r2, r1. rewrite !push_command_coll, push_command_next_oid.
    by rewrite <- app_assoc.
Qed.

Lemma push_command_ids_distinct_witness :
  (N.succ (next_oid empty_db) < 16 ^ 24)%N /\
  snd (push_command cmd_fan3 10 empty_db)
  <> snd (push_command cmd_off 20 (fst (push_command cmd_fan3 10 empty_db))).
Proof.
  assert (H : (N.succ (next_oid empty_db) < 16 ^ 24)%N) by (vm_compute; done).
  split; [exact H|].
  exact (proj1 (push_command_ids_distinct cmd_fan3 10 cmd_off 20 empty_db H)).
Defined.

(** * The derived AQI in floating point *)

Lemma rounding_eq fl x y :
  rounding_monotone fl -> x == y -> fl x == fl y.
Proof.
  intros Hm E. apply Qle_antisym; apply Hm; rewrite E; apply Qle_refl.
Qed.

(** The value the source truncates: the larger of the two clamped terms. *)
Lemma clamped_pair_bounds (x y : Q) :
  (0 <= py_max (py_min (py_max x 0) 500) (py_min (py_max y 0) 500))%Q /\
  (py_max (py_min (py_max x 0) 500) (py_min (py_max y 0) 500) <= 500)%Q.
Proof.
  rewrite py_max_Qmax, !py_min_Qmin, !py_max_Qmax. split.
  - apply Q.max_le_iff. left. apply Q.min_glb; [apply Q.le_max_r | done].
  - apply Q.max_lub; apply Q.le_min_r.
Qed.

Lemma compute_aqi_fl_value fl pm25 pm10 :
  pm25 <> None \/ pm10 <> None ->
  compute_aqi_fl fl pm25 pm10
  = Some (Qfloor (py_max (py_min (py_max (fl (or0 pm25 * 5)%Q) 0) 500)
                         (py_min (py_max (fl (or0 pm10 * 2)%Q) 0) 500))).
Proof.
  intros H.
  assert (compute_aqi_fl fl pm25 pm10
          = Some (py_int (py_max (py_min (py_max (fl (or0 pm25 * 5)%Q) 0) 500)
                                 (py_min (py_max (fl (or0 pm10 * 2)%Q) 0) 500))))
    as ->.
  { destruct pm25, pm10; try reflexivity. by destruct H. }
  f_equal. apply py_int_floor, clamped_pair_bounds.
Qed.

(** X1. For finite inputs of either sign, and however the two products
    are rounded, [compute_aqi] answers an integer from 0 to 500; it
    answers nothing exactly when both inputs are absent. *)
Theorem compute_aqi_fl_range fl pm25 pm10 :
  match compute_aqi_fl fl pm25 pm10 with
  | Some aqi => 0 <= aqi <= 500 /\ (pm25 <> None \/ pm10 <> None)
  | None => pm25 = None /\ pm10 = None
  end.
Proof.
  assert (Hr : pm25 <> None \/ pm10 <> None ->
               match compute_aqi_fl fl pm25 pm10 with
               | Some aqi => 0 <= aqi <= 500 /\ (pm25 <> None \/ pm10 <> None)
               | None => pm25 = None /\ pm10 = None
               end).
  { intros H. rewrite (compute_aqi_fl_value fl pm25 pm10 H).
    split; [|exact H].
    destruct (clamped_pair_bounds (fl (or0 pm25 * 5)%Q) (fl (or0 pm10 * 2)%Q))
      as [H0 H500].
    apply Qfloor_resp_le in H0, H500.
    change (Qfloor 0) with 0 in H0. change (Qfloor 500) with 500 in H500.
    lia. }
  destruct pm25 as [a|], pm10 as [b|];
    [apply Hr; by left | apply Hr; by left | apply Hr; by right | done].
Qed.

Lemma compute_aqi_fl_spec fl (a b : Q) :
  rounding_monotone fl ->
  compute_aqi_fl fl (Some a) (Some b) = Some (Qfloor (spec_aqi_fl fl a b)).
Proof.
  intros Hm. rewrite compute_aqi_fl_value by (by left). f_equal.
  apply Qfloor_comp. unfold spec_aqi_fl.
  rewrite py_max_Qmax, !py_min_Qmin, !py_max_Qmax.
  assert (fl (or0 (Some a) * 5)%Q == fl (a * 5)%Q) as ->.
  { apply rounding_eq; [done|]. by rewrite or0_eq. }
  assert (fl (or0 (Some b) * 2)%Q == fl (b * 2)%Q) as ->.
  { apply rounding_eq; [done|]. by rewrite or0_eq. }
  apply clamp_max.
Qed.

(** Rounding cannot carry the clamped value across a whole number. *)
Lemma spec_aqi_fl_lower fl a b (n : Z) :
  rounding_monotone fl -> rounding_exact fl ->
  0 <= n <= 500 ->
  (inject_Z n <= spec_aqi a b)%Q -> (inject_Z n <= spec_aqi_fl fl a b)%Q.
Proof.
  intros Hm He Hn Hle. unfold spec_aqi, spec_aqi_fl in *.
  assert (H500 : (inject_Z n <= 500)%Q).
  { change 500%Q with (inject_Z 500). rewrite <- Zle_Qle. lia. }
  apply Q.min_glb; [|exact H500].
  destruct (Z.eq_dec n 0) as [->|Hn0]; [apply Q.le_max_r|].
  apply Q.max_le_iff. left.
  assert (Hle' : (inject_Z n <= Qmax (Qmax (a * 5) (b * 2)) 0)%Q).
  { eapply Qle_trans; [exact Hle | apply Q.le_min_l]. }
  apply Q.max_le_iff in Hle' as [Hle'|Hle'].
  - rewrite <- (He n Hn).
    apply Q.max_le_iff in Hle' as [Hle'|Hle']; apply Q.max_le_iff;
      [left | right]; by apply Hm.
  - exfalso. change 0%Q with (inject_Z 0) in Hle'.
    rewrite <- Zle_Qle in Hle'. lia.
Qed.

Lemma spec_aqi_fl_upper fl a b (n : Z) :
  rounding_monotone fl -> rounding_exact fl ->
  0 <= n <= 500 ->
  (spec_aqi a b <= inject_Z n)%Q -> (spec_aqi_fl fl a b <= inject_Z n)%Q.
Proof.
  intros Hm He Hn Hle. unfold spec_aqi, spec_aqi_fl in *.
  apply Q.min_le_iff in Hle as [Hle|Hle].
  - apply Q.min_le_iff. left.
    apply Q.max_lub_iff in Hle as [HM H0].
    apply Q.max_lub_iff in HM as [Ha Hb].
    apply Q.max_lub; [|exact H0].
    rewrite <- (He n Hn). apply Q.max_lub; by apply Hm.
  - apply Q.min_le_iff. right. exact Hle.
Qed.

Lemma compute_aqi_fl_between fl (a b : Q) :
  rounding_monotone fl -> rounding_exact fl ->
  Qfloor (spec_aqi a b) <= Qfloor (spec_aqi_fl fl a b)
    <= Qceiling (spec_aqi a b) /\
  0 <= Qfloor (spec_aqi_fl fl a b) <= 500.
Proof.
  intros Hm He.
  destruct (spec_aqi_bounds a b) as [H0 H500].
  assert (Hf : 0 <= Qfloor (spec_aqi a b) <= 500).
  { apply Qfloor_resp_le in H0, H500. change (Qfloor 0) with 0 in H0.
    change (Qfloor 500) with 500 in H500. lia. }
  assert (Hc : 0 <= Qceiling (spec_aqi a b) <= 500).
  { apply Qceiling_resp_le in H0, H500. change (Qceiling 0) with 0 in H0.
    change (Qceiling 500) with 500 in H500. lia. }
  assert (Hlow : Qfloor (spec_aqi a b) <= Qfloor (spec_aqi_fl fl a b)).
  { rewrite <- (Qfloor_Z (Qfloor (spec_aqi a b))) at 1.
    apply Qfloor_resp_le, spec_aqi_fl_lower; try done. apply Qfloor_le. }
  assert (Hup : Qfloor (spec_aqi_fl fl a b) <= Qceiling (spec_aqi a b)).
  { rewrite Zle_Qle. eapply Qle_trans; [apply Qfloor_le|].
    apply spec_aqi_fl_upper; try done. apply Qle_ceiling. }
  lia.
Qed.

Lemma ingest_reading_fl_stored fl payload now_ts now_hb db :
  exists i,
    stored_reading_fl fl payload now_ts now_hb db
    = Some (Document i
              (<["aqi" := opt VInt
                   match sr_aqi payload with
                   | Some a => Some a
                   | None => compute_aqi_fl fl (Some (sr_pm2_5 payload))
                               (Some (sr_pm10 payload))
                   end]>
                 (<["timestamp" := VTime
                      match sr_timestamp payload with
                      | Some t => t
                      | None => now_ts
                      end]> (SensorReading_dump payload)))).
Proof.
  unfold stored_reading_fl, ingest_reading_fl.
  rewrite create_document_fst, coll_insert_one_eq, last_snoc. by eexists.
Qed.

(** C7 (as amended).  For a reading that comes without [aqi], with finite
    concentrations, the stored [aqi] is the integer part of
    [clamp(max(pm2_5*5, pm10*2), 0, 500)] with the two products rounded
    as the float multiplication rounds them.  It is therefore an integer
    from 0 to 500 that lies between the floor and the ceiling of the
    formula's exact value, and it is that value whenever the value is a
    whole number: 50 for [pm2_5 = 10, pm10 = 5] and 500 for
    [pm2_5 = 200, pm10 = 0].  It is never null at ingestion:
    [compute_aqi] answers null only when both inputs are absent, and the
    schema requires both. *)
Theorem ingest_reading_aqi_rounded fl payload now_ts now_hb db :
  rounding_monotone fl -> rounding_exact fl ->
  sr_aqi payload = None ->
  (exists d aqi,
     stored_reading_fl fl payload now_ts now_hb db = Some d /\
     doc_fields d !! "aqi" = Some (VInt aqi) /\
     aqi = Qfloor (spec_aqi_fl fl (sr_pm2_5 payload) (sr_pm10 payload)) /\
     Qfloor (spec_aqi (sr_pm2_5 payload) (sr_pm10 payload)) <= aqi /\
     aqi <= Qceiling (spec_aqi (sr_pm2_5 payload) (sr_pm10 payload)) /\
     0 <= aqi /\ aqi <= 500 /\
     (forall n : Z,
        spec_aqi (sr_pm2_5 payload) (sr_pm10 payload) == inject_Z n ->
        aqi = n)) /\
  (forall pm25 pm10,
     compute_aqi_fl fl pm25 pm10 = None <-> pm25 = None /\ pm10 = None) /\
  compute_aqi_fl fl (Some 10%Q) (Some 5%Q) = Some 50 /\
  compute_aqi_fl fl (Some 200%Q) (Some 0%Q) = Some 500.
Proof.
  intros Hm He Haqi.
  assert (Hwhole : forall (a b : Q) (n : Z),
            spec_aqi a b == inject_Z n ->
            Qfloor (spec_aqi_fl fl a b) = n).
  { intros a b n E.
    destruct (compute_aqi_fl_between fl a b Hm He) as [[Hlo Hhi] _].
    rewrite (Qfloor_comp _ _ E), Qfloor_Z in Hlo.
    rewrite (Qceiling_comp _ _ E), Qceiling_Z in Hhi. lia. }
  split; [|split; [|split]].
  - destruct (ingest_reading_fl_stored fl payload now_ts now_hb db) as [i ->].
    destruct (compute_aqi_fl_between fl (sr_pm2_5 payload) (sr_pm10 payload)
                Hm He) as [[Hlo Hhi] [H0 H500]].
    eexists _, _. split; [done|]. split.
    { cbn [doc_fields].
      by rewrite lookup_insert_eq, Haqi, (compute_aqi_fl_spec fl _ _ Hm). }
    split; [done|]. split; [done|]. split; [done|]. split; [done|].
    split; [done|]. intros n E. by apply Hwhole.
  - intros [p|] [q|]; cbn [compute_aqi_fl];
      (split;
       [ intros H; try discriminate H; done
       | intros [H1 H2]; try discriminate H1; try discriminate H2; done ]).
  - rewrite (compute_aqi_fl_spec fl _ _ Hm). f_equal.
    apply Hwhole. by vm_compute.
  - rewrite (compute_aqi_fl_spec fl _ _ Hm). f_equal.
    apply Hwhole. by vm_compute.
Qed.

Lemma ingest_reading_aqi_rounded_witness :
  rounding_monotone (fun q => q) /\
  rounding_exact (fun q => q) /\
  sr_aqi reading_d1 = None /\
  exists d aqi,
    stored_reading_fl (fun q => q) reading_d1 100 101 empty_db = Some d /\
    doc_fields d !! "aqi" = Some (VInt aqi) /\
    aqi = Qfloor (spec_aqi_fl (fun q => q) 10 5) /\
    Qfloor (spec_aqi 10 5) <= aqi /\
    aqi <= Qceiling (spec_aqi 10 5) /\
    0 <= aqi /\ aqi <= 500 /\
    (forall n : Z, spec_aqi 10 5 == inject_Z n -> aqi = n).
Proof.
  assert (H1 : rounding_monotone (fun q => q)) by (intros x y H; exact H).
  assert (H2 : rounding_exact (fun q => q)) by (intros n _; reflexivity).
  assert (H3 : sr_aqi reading_d1 = None) by reflexivity.
  split_and!; [exact H1 | exact H2 | exact H3 |].
  exact (proj1 (ingest_reading_aqi_rounded (fun q => q) reading_d1 100 101
                  empty_db H1 H2 H3)).
Defined.

(** X3. An input that is absent counts as zero: with one concentration
    missing [compute_aqi] answers what it answers with 0 in its place,
    which is the integer part of the other one's term alone -- the
    rounded product of PM2.5 by 5, or of PM10 by 2, clamped to
    [0, 500]. *)
Theorem compute_aqi_fl_one_absent fl (a b : Q) :
  rounding_monotone fl -> rounding_exact fl ->
  compute_aqi_fl fl (Some a) None = compute_aqi_fl fl (Some a) (Some 0%Q) /\
  compute_aqi_fl fl None (Some b) = compute_aqi_fl fl (Some 0%Q) (Some b) /\
  compute_aqi_fl fl (Some a) None
    = Some (Qfloor (Qmin (Qmax (fl (a * 5)%Q) 0) 500)) /\
  compute_aqi_fl fl None (Some b)
    = Some (Qfloor (Qmin (Qmax (fl (b * 2)%Q) 0) 500)).
Proof.
  intros Hm He.
  assert (Hz5 : fl (0 * 5)%Q == 0) by apply (He 0 ltac:(lia)).
  assert (Hz2 : fl (0 * 2)%Q == 0) by apply (He 0 ltac:(lia)).
  assert (Hclamp : forall x : Q, Qmax (Qmin (Qmax x 0) 500) 0
                                 == Qmin (Qmax x 0) 500).
  { intros x. apply Q.max_l. apply Q.min_glb; [apply Q.le_max_r | done]. }
  split_and!; try reflexivity.
  - rewrite compute_aqi_fl_value by (by left). f_equal.
    apply Qfloor_comp. rewrite py_max_Qmax, !py_min_Qmin, !py_max_Qmax.
    assert (fl (or0 (Some a) * 5)%Q == fl (a * 5)%Q) as ->.
    { apply rounding_eq; [done|]. by rewrite or0_eq. }
    change (or0 None) with 0%Q. rewrite Hz2.
    assert (Qmin (Qmax 0 0) 500 == 0) as -> by reflexivity.
    apply Hclamp.
  - rewrite compute_aqi_fl_value by (by right). f_equal.
    apply Qfloor_comp. rewrite py_max_Qmax, !py_min_Qmin, !py_max_Qmax.
    assert (fl (or0 (Some b) * 2)%Q == fl (b * 2)%Q) as ->.
    { apply rounding_eq; [done|]. by rewrite or0_eq. }
    change (or0 None) with 0%Q. rewrite Hz5.
    assert (Qmin (Qmax 0 0) 500 == 0) as -> by reflexivity.
    rewrite Q.max_comm. apply Hclamp.
Qed.

Lemma compute_aqi_fl_one_absent_witness :
  rounding_monotone (fun q => q) /\
  rounding_exact (fun q => q) /\
  compute_aqi_fl (fun q => q) (Some (3 # 5)) None
    = Some (Qfloor (Qmin (Qmax ((3 # 5) * 5) 0) 500)).
Proof.
  assert (H1 : rounding_monotone (fun q => q)) by (intros x y H; exact H).
  assert (H2 : rounding_exact (fun q => q)) by (intros n _; reflexivity).
  split_and!; [exact H1 | exact H2 |].
  exact (proj1 (proj2 (proj2
           (compute_aqi_fl_one_absent (fun q => q) (3 # 5) 0 H1 H2)))).
Defined.

(** * The order of delivery *)

Lemma created_at_stored_command i c t :
  created_at (stored_command i c t) = Some t.
Proof.
  unfold created_at, stored_command; cbn [doc_fields].
  by rewrite lookup_insert_eq.
Qed.

Lemma created_at_stored_commands cs : forall i,
  map created_at (stored_commands i cs) = map (fun ct => Some (snd ct)) cs.
Proof.
  induction cs as [|[c t] cs IH]; intros i; cbn [stored_commands map];
    [done|].
  by rewrite created_at_stored_command, IH.
Qed.

Lemma stored_commands_older cs : forall i,
  StronglySorted Z.lt (map snd cs) ->
  StronglySorted older (stored_commands i cs).
Proof.
  induction cs as [|[c t] cs IH]; intros i Hs; cbn [stored_commands].
  - constructor.
  - cbn [map snd] in Hs. apply StronglySorted_inv in Hs as [Hs Hlt].
    constructor; [by apply IH|].
    rewrite Forall_forall. intros d Hd.
    destruct (stored_commands_elem _ _ _ Hd) as (j & c' & t' & Hin & ->).
    exists t, t'. rewrite !created_at_stored_command. split_and!; try done.
    rewrite Forall_forall in Hlt. apply Hlt.
    by apply (list_elem_of_fmap_2 snd) in Hin.
Qed.

Lemma older_asym a b : older a b -> older b a -> False.
Proof.
  intros (ta & tb & Ha & Hb & Hlt) (tb' & ta' & Hb' & Ha' & Hlt').
  rewrite Ha in Ha'. rewrite Hb in Hb'.
  injection Ha' as <-. injection Hb' as <-. lia.
Qed.

Lemma filter_negb_none {A} (f : A -> bool) l :
  List.filter f l = [] -> List.filter (fun x => negb (f x)) l = l.
Proof.
  induction l as [|x l IH]; cbn [List.filter]; [done|].
  destruct (f x); [discriminate|]. intros H. cbn [negb]. by rewrite IH.
Qed.

Lemma filter_negb_all {A} (f : A -> bool) l :
  Forall (fun x => f x = true) l -> List.filter (fun x => negb (f x)) l = [].
Proof.
  induction 1 as [|x l Hx _ IH]; cbn [List.filter]; [done|].
  by rewrite Hx.
Qed.

(** Polling a device until its queue is empty hands its pending commands
    out by increasing [created_at], whatever order they lie in, and
    leaves the documents of the other devices where they were. *)
Lemma poll_n_by_created_at device_id k n : forall q db,
  find "devicecommand" (for_device device_id) db = q ->
  length q = n ->
  NoDup (ids (coll db "devicecommand")) ->
  Forall (fun d => is_Some (created_at d)) q ->
  NoDup (map created_at q) ->
  exists db' docs,
    poll_n (n + k) device_id db
      = (db', map (fun d => Some (with_str_id d)) docs ++ replicate k None) /\
    docs ≡ₚ q /\
    StronglySorted older docs /\
    coll db' "devicecommand"
      = List.filter (fun d => negb (matches (for_device device_id) d))
          (coll db "devicecommand").
Proof.
  induction n as [|n IH]; intros q db Hq Hlen Hnd Htime Hdist.
  - destruct q; [|discriminate]. exists db, []. cbn [Nat.add].
    rewrite (poll_n_empty k _ _ Hq). split_and!; try done; [constructor|].
    symmetry. by apply filter_negb_none.
  - assert (exists x, find_one_sorted "devicecommand" (for_device device_id)
                        "created_at" Asc db = Some x) as [x Hx].
    { unfold find_one_sorted. rewrite Hq.
      destruct (sort_docs "created_at" Asc q) as [|x s] eqn:E; [|by exists x].
      pose proof (sort_docs_length "created_at" Asc q) as Hl.
      rewrite E, Hlen in Hl. discriminate. }
    destruct (next_command_found _ _ _ Hnd Hx) as (l1 & l2 & E & Hn).
    destruct (find_one_sorted_elem _ _ _ _ _ _ Hx) as [_ Hmx].
    assert (Hleast : forall y, y ∈ q ->
              key_leb "created_at" Asc x y = true).
    { apply sort_docs_head_least; [done|].
      unfold find_one_sorted in Hx. by rewrite Hq in Hx. }
    set (f := matches (for_device device_id)) in *.
    set (db1 := set_coll "devicecommand" (l1 ++ l2) db) in *.
    set (q' := List.filter f l1 ++ List.filter f l2).
    assert (Hqsplit : q = List.filter f l1 ++ x :: List.filter f l2).
    { rewrite <- Hq. unfold find. fold f. rewrite E, List.filter_app.
      cbn [List.filter]. by rewrite Hmx. }
    assert (Hperm : q ≡ₚ x :: q').
    { rewrite Hqsplit. unfold q'. by rewrite <- Permutation_middle. }
    assert (Hq' : find "devicecommand" (for_device device_id) db1 = q').
    { unfold find, db1. rewrite coll_set_coll_eq. fold f.
      by rewrite List.filter_app. }
    assert (Hdist' : NoDup (created_at x :: map created_at q')).
    { change (NoDup (map created_at (x :: q'))). by rewrite <- Hperm. }
    apply NoDup_cons in Hdist' as [Hxq' Hdist'].
    destruct (IH q' db1) as (db' & docs & Hp & Hdocs & Hsorted & Hcoll).
    + exact Hq'.
    + apply Permutation_length in Hperm. cbn [length] in Hperm. lia.
    + unfold db1. rewrite coll_set_coll_eq.
      apply (NoDup_ids_remove l1 x l2). by rewrite <- E.
    + rewrite Forall_forall in *. intros y Hy. apply Htime.
      rewrite Hperm. by right.
    + exact Hdist'.
    + exists db', (x :: docs). cbn [Nat.add poll_n]. rewrite Hn, Hp.
      split_and!.
      * done.
      * rewrite Hperm. by constructor.
      * constructor; [done|]. rewrite Forall_forall. intros y Hy.
        assert (Hyq' : y ∈ q') by (by rewrite <- Hdocs).
        assert (Hyq : y ∈ q) by (rewrite Hperm; by right).
        assert (Hxq : x ∈ q) by (rewrite Hperm; left).
        rewrite Forall_forall in Htime.
        destruct (Htime x Hxq) as [tx Htx]. destruct (Htime y Hyq) as [ty Hty].
        exists tx, ty. split_and!; try done.
        pose proof (Hleast y Hyq) as Hle. unfold key_leb in Hle.
        rewrite (sort_key_created_at _ _ Htx),
          (sort_key_created_at _ _ Hty) in Hle.
        cbn [value_leb] in Hle. apply Z.leb_le in Hle.
        assert (tx <> ty); [|lia].
        intros ->. apply Hxq'. rewrite Htx, <- Hty.
        by apply list_elem_of_fmap_2.
      * rewrite Hcoll. unfold db1. rewrite coll_set_coll_eq, E.
        rewrite !List.filter_app. cbn [List.filter]. fold f.
        by rewrite Hmx.
Qed.

(** C1 as stated fails: when the clock read by the second enqueue is
    behind the one read by the first, the second command is handed out
    first. *)
Lemma command_queue_clock_backwards :
  snd (poll_n 3 "d1" (push_all [(cmd_fan3, 20); (cmd_off, 10)] empty_db))
  = [Some (with_str_id (stored_command 1%N cmd_off 10));
     Some (with_str_id (stored_command 0%N cmd_fan3 20));
     None].
Proof. by vm_compute. Qed.

(** C1 (as amended).  On a store where the device has nothing pending,
    commands enqueued one after the other for one [device_id], at clock
    readings that are pairwise distinct, come back from repeated
    [next_command] calls by increasing [created_at] (oldest first), each
    of them once; every further poll answers the empty result
    [{command: None}]; and the collection is left as it was before the
    enqueues.  That order is the order of the enqueues when the clock
    readings increase from each enqueue to the next. *)
Theorem command_queue_created_at_order device_id cs k db :
  wf_coll db "devicecommand" ->
  find "devicecommand" (for_device device_id) db = [] ->
  Forall (fun ct => dc_device_id (fst ct) = device_id) cs ->
  NoDup (map snd cs) ->
  exists db' docs,
    poll_n (length cs + k) device_id (push_all cs db)
      = (db', map (fun d => Some (with_str_id d)) docs ++ replicate k None) /\
    docs ≡ₚ stored_commands (next_oid db) cs /\
    StronglySorted older docs /\
    (StronglySorted Z.lt (map snd cs) ->
     docs = stored_commands (next_oid db) cs) /\
    coll db' "devicecommand" = coll db "devicecommand".
Proof.
  intros [Hnd Hlt] Hnone Hdev Hdist.
  set (stored := stored_commands (next_oid db) cs).
  assert (Hmatch : Forall (fun d => matches (for_device device_id) d = true)
                     stored).
  { rewrite Forall_forall. intros d Hd.
    destruct (stored_commands_elem _ _ _ Hd) as (j & c & t & Hin & ->).
    apply matches_for_device. rewrite stored_command_device.
    rewrite Forall_forall in Hdev. specialize (Hdev _ Hin). simpl in Hdev.
    by rewrite Hdev. }
  assert (Hfind : find "devicecommand" (for_device device_id)
                    (push_all cs db) = stored).
  { unfold find. rewrite push_all_coll, List.filter_app.
    unfold find in Hnone. rewrite Hnone. cbn [app].
    by apply filter_all. }
  destruct (poll_n_by_created_at device_id k (length cs) stored
              (push_all cs db)) as (db' & docs & Hp & Hperm & Hsorted & Hcoll).
  - exact Hfind.
  - apply stored_commands_length.
  - rewrite push_all_coll. unfold ids. rewrite map_app.
    apply NoDup_app. split_and!; [done| |].
    + intros i Hi Hi'.
      apply list_elem_of_fmap in Hi as (d & -> & Hd).
      apply list_elem_of_fmap in Hi' as (d' & E & Hd').
      rewrite Forall_forall in Hlt. specialize (Hlt d Hd).
      pose proof (stored_commands_ids_ge cs (next_oid db)) as Hge.
      rewrite Forall_forall in Hge. specialize (Hge d' Hd'). lia.
    + apply stored_commands_NoDup.
  - rewrite Forall_forall. intros d Hd.
    destruct (stored_commands_elem _ _ _ Hd) as (j & c & t & _ & ->).
    exists t. apply created_at_stored_command.
  - unfold stored. rewrite created_at_stored_commands.
    rewrite <- (map_map snd Some). apply NoDup_fmap; [|done].
    by intros ?? [= ->].
  - exists db', docs. split_and!; try done.
    + intros Hinc.
      apply (StronglySorted_unique_strong older); try done.
      * intros x1 x2 _ _ H12 H21. destruct (older_asym _ _ H12 H21).
      * by apply stored_commands_older.
    + rewrite Hcoll, push_all_coll, List.filter_app.
      fold stored. rewrite (filter_negb_all _ _ Hmatch), app_nil_r.
      apply filter_negb_none. exact Hnone.
Qed.

Lemma command_queue_created_at_order_witness :
  wf_coll empty_db "devicecommand" /\
  find "devicecommand" (for_device "d1") empty_db = [] /\
  Forall (fun ct => dc_device_id (fst ct) = "d1")
    [(cmd_fan3, 20); (cmd_off, 10)] /\
  NoDup (map snd [(cmd_fan3, 20); (cmd_off, 10)]) /\
  exists db' docs,
    poll_n (2 + 1) "d1" (push_all [(cmd_fan3, 20); (cmd_off, 10)] empty_db)
      = (db', map (fun d => Some (with_str_id d)) docs ++ replicate 1 None) /\
    docs ≡ₚ stored_commands 0%N [(cmd_fan3, 20); (cmd_off, 10)] /\
    StronglySorted older docs /\
    (StronglySorted Z.lt (map snd [(cmd_fan3, 20); (cmd_off, 10)]) ->
     docs = stored_commands 0%N [(cmd_fan3, 20); (cmd_off, 10)]) /\
    coll db' "devicecommand" = [].
Proof.
  assert (H1 : wf_coll empty_db "devicecommand") by (split; constructor).
  assert (H2 : find "devicecommand" (for_device "d1") empty_db = [])
    by reflexivity.
  assert (H3 : Forall (fun ct => dc_device_id (fst ct) = "d1")
                 [(cmd_fan3, 20); (cmd_off, 10)])
    by (repeat constructor).
  assert (H4 : NoDup (map snd [(cmd_fan3, 20); (cmd_off, 10)])).
  { cbn. repeat constructor; rewrite ?elem_of_cons, ?elem_of_nil;
      intuition discriminate. }
  split_and!; try done.
  exact (command_queue_created_at_order "d1" [(cmd_fan3, 20); (cmd_off, 10)]
           1 empty_db H1 H2 H3 H4).
Defined.
